(** * GmailDrafter: a shallow embedding of [main.py] and [main_simple.py]

    The repository is a mail-merge tool in two variants.  [main.py]
    (class [GmailDraftCreator], module [Remote] below) creates drafts
    through the Gmail REST API; [main_simple.py] (class
    [SimpleGmailDraftCreator], module [Simple] below) appends drafts to
    the Drafts folder over IMAP.

    Python values are modelled as follows.
    - A [str] is the list of its Unicode code points ([pystr]); this is
      what [str.split], [str.replace] and [re.sub] operate on.
    - A contact is one row of [csv.DictReader]: a dictionary from column
      names to values, where a value is a [str], or [None] when the row
      is shorter than the header (the reader's default [restval]).
    - Exceptions are values of [exn]; fallible code returns [result].
    - The outside world (files, the OAuth flow, the REST service, the
      IMAP session) is an abstract state reached through an interface;
      [print] appends a line to the captured standard output. *)

From Stdlib Require Import NArith List String Ascii Lia DecimalString.
From stdpp Require Import base option list gmap strings.

Local Open Scope N_scope.
Local Open Scope list_scope.

(** ** Python strings *)

Definition pystr := list N.

(** An ASCII literal of the source, as code points. *)
Definition lit (s : string) : pystr :=
  map N_of_ascii (list_ascii_of_string s).

(** [str(n)] for a non-negative integer. *)
Definition str_of_nat (n : nat) : pystr :=
  lit (NilZero.string_of_uint (Nat.to_uint n)).

(** [s.startswith(p)], returning what follows the prefix. *)
Fixpoint strip_prefix (p s : pystr) : option pystr :=
  match p, s with
  | [], _ => Some s
  | _ :: _, [] => None
  | a :: p', b :: s' => if N.eqb a b then strip_prefix p' s' else None
  end.

(** [old in s]. *)
Fixpoint contains (old s : pystr) : bool :=
  match strip_prefix old s with
  | Some _ => true
  | None => match s with
            | [] => false
            | _ :: s' => contains old s'
            end
  end.

(** [s.replace(old, new)]: scan from the left; where [old] starts, emit
    [new] and resume after the occurrence, otherwise copy one character.
    [skip] counts the characters of the current occurrence still to be
    passed over.  For an empty [old], Python puts [new] before every
    character and at the end. *)
Fixpoint replace_from (skip : nat) (old new s : pystr) : pystr :=
  match s with
  | [] => []
  | c :: s' =>
      match skip with
      | S k => replace_from k old new s'
      | O =>
          match strip_prefix old s with
          | Some _ => new ++ replace_from (length old - 1) old new s'
          | None => c :: replace_from 0 old new s'
          end
      end
  end.

Definition replace (old new s : pystr) : pystr :=
  match old with
  | [] => new ++ flat_map (fun c => c :: new) s
  | _ :: _ => replace_from 0 old new s
  end.

(** [str.isspace] for one code point (CPython's [Py_UNICODE_ISSPACE]);
    the same set is the regular-expression class [\s] on [str]
    patterns. *)
Definition isspace (c : N) : bool :=
  ((9 <=? c) && (c <=? 13)) || ((28 <=? c) && (c <=? 32))
  || (c =? 133) || (c =? 160) || (c =? 5760)
  || ((8192 <=? c) && (c <=? 8202))
  || (c =? 8232) || (c =? 8233) || (c =? 8239) || (c =? 8287)
  || (c =? 12288).

(** [s.split()] with no argument: the maximal runs of non-whitespace
    characters, in order. [cur] is the run being read, reversed. *)
Definition flush (cur : pystr) (k : list pystr) : list pystr :=
  match cur with
  | [] => k
  | _ :: _ => rev cur :: k
  end.

Fixpoint split_ws_from (cur : pystr) (s : pystr) : list pystr :=
  match s with
  | [] => flush cur []
  | c :: s' =>
      if isspace c then flush cur (split_ws_from [] s')
      else split_ws_from (c :: cur) s'
  end.

Definition split_ws (s : pystr) : list pystr := split_ws_from [] s.

(** ** Exceptions and results *)

Inductive exn : Type :=
| IndexError
| TypeError
| FileNotFoundError (msg : pystr)
| HttpError (msg : pystr)
| OtherError (msg : pystr).

(** [str(e)], as interpolated by the f-strings that report an error. *)
Definition exn_msg (e : exn) : pystr :=
  match e with
  | IndexError => lit "list index out of range"
  | TypeError => lit "replace() argument 2 must be str, not None"
  | FileNotFoundError m => m
  | HttpError m => m
  | OtherError m => m
  end.

Inductive result (A : Type) : Type :=
| Ok (a : A)
| Raise (e : exn).
Arguments Ok {A} a.
Arguments Raise {A} e.

Definition is_ok {A} (r : result A) : bool :=
  match r with Ok _ => true | Raise _ => false end.

(** ** Contacts *)

Inductive pyval : Type :=
| PyNone
| PyStr (s : pystr).

(** Python truthiness of a cell: [None] and [''] are false. *)
Definition truthy (v : pyval) : bool :=
  match v with
  | PyNone => false
  | PyStr [] => false
  | PyStr (_ :: _) => true
  end.

(** [f"{v}"]. *)
Definition fmt (v : pyval) : pystr :=
  match v with
  | PyNone => lit "None"
  | PyStr s => s
  end.

Abbreviation contact := (gmap string pyval).

(** [d.get(key, dflt)]. *)
Definition get (d : contact) (key : string) (dflt : pyval) : pyval :=
  default dflt (d !! key).

(** [contact.get('name', contact.get('Name', ''))] *)
Definition get_name (c : contact) : pyval :=
  get c "name" (get c "Name" (PyStr [])).

(** [contact.get('email', contact.get('Email', ''))] *)
Definition get_email (c : contact) : pyval :=
  get c "email" (get c "Email" (PyStr [])).

Definition placeholder : pystr := lit "%name%".

(** [template.replace('%name%', v)]: the argument must be a [str]. *)
Definition replace_name (template : pystr) (v : pyval) : result pystr :=
  match v with
  | PyNone => Raise TypeError
  | PyStr s => Ok (replace placeholder s template)
  end.

(** [xs[0]] *)
Definition index0 {A} (xs : list A) : result A :=
  match xs with
  | [] => Raise IndexError
  | x :: _ => Ok x
  end.

(** ** The result monad and the monad of effectful code

    [M W A] is a computation over a world [W] that may print lines and
    may raise: it maps the world to the new world, the lines printed by
    this computation, and its result. *)

Definition rbind {A B} (r : result A) (k : A -> result B) : result B :=
  match r with
  | Ok a => k a
  | Raise e => Raise e
  end.

Notation "'let?' x ':=' r 'in' k" := (rbind r (fun x => k))
  (at level 10, x name, r at level 100, k at level 200).

Definition M (W A : Type) : Type := W -> W * list pystr * result A.

Definition ret {W A} (a : A) : M W A := fun w => (w, [], Ok a).

Definition raise {W A} (e : exn) : M W A := fun w => (w, [], Raise e).

Definition bind {W A B} (m : M W A) (k : A -> M W B) : M W B :=
  fun w =>
    match m w with
    | (w1, o1, Ok a) =>
        match k a w1 with
        | (w2, o2, r) => (w2, o1 ++ o2, r)
        end
    | (w1, o1, Raise e) => (w1, o1, Raise e)
    end.

Notation "'let*' x ':=' m 'in' k" := (bind m (fun x => k))
  (at level 10, x name, m at level 100, k at level 200).
Notation "m '>>' k" := (bind m (fun _ => k))
  (at level 100, k at level 200, right associativity).

(** [try: m  except Exception as e: h e] *)
Definition try_except {W A} (m : M W A) (h : exn -> M W A) : M W A :=
  fun w =>
    match m w with
    | (w1, o1, Ok a) => (w1, o1, Ok a)
    | (w1, o1, Raise e) =>
        match h e w1 with
        | (w2, o2, r) => (w2, o1 ++ o2, r)
        end
    end.

(** [print(line)] *)
Definition print {W} (line : pystr) : M W unit := fun w => (w, [line], Ok tt).

(** A pure, fallible expression evaluated in an effectful context. *)
Definition lift {W A} (r : result A) : M W A := fun w => (w, [], r).

(** A read of the world, and an action on it. *)
Definition ask {W A} (f : W -> result A) : M W A := fun w => (w, [], f w).
Definition act {W A} (f : W -> W * result A) : M W A :=
  fun w => match f w with (w', r) => (w', [], r) end.

(** What a computation leaves behind, apart from its output. *)
Definition outcome {W A} (m : M W A) (w : W) : W * result A :=
  match m w with (w', _, r) => (w', r) end.
Definition stdout {W A} (m : M W A) (w : W) : list pystr :=
  match m w with (_, o, _) => o end.
Definition value {W A} (m : M W A) (w : W) : result A :=
  match m w with (_, _, r) => r end.

(** Files read by both variants.  [read_text] is
    [open(f, 'r', encoding='utf-8').read()]; [read_rows] is the list of
    rows [csv.DictReader] yields for the file.  Either raises
    [FileNotFoundError] when the file is absent. *)
Class Files (W : Type) := {
  read_text : W -> pystr -> result pystr;
  read_rows : W -> pystr -> result (list contact)
}.

Section Loaders.
Context {W : Type} `{Files W}.

(** [load_template], the same in both variants: a missing file is
    reported under the name that was asked for. *)
Definition load_template (template_file : pystr) : M W pystr :=
  try_except (ask (fun w => read_text w template_file))
    (fun e => match e with
              | FileNotFoundError _ =>
                  raise (FileNotFoundError
                           (lit "Template file '" ++ template_file ++ lit "' not found"))
              | _ => raise e
              end).

(** [load_contacts], the same in both variants. *)
Definition load_contacts (contacts_file : pystr) : M W (list contact) :=
  try_except (ask (fun w => read_rows w contacts_file))
    (fun e => match e with
              | FileNotFoundError _ =>
                  raise (FileNotFoundError
                           (lit "Contacts file '" ++ contacts_file ++ lit "' not found"))
              | _ => raise e
              end).
End Loaders.

(** ** HTML promotion ([convert_to_html], remote-API variant) *)

(** The character class of the pattern: anything but whitespace, the
    two angle brackets (60, 62) and the double quote (34). *)
Definition url_char (c : N) : bool :=
  negb (isspace c || (c =? 60) || (c =? 62) || (c =? 34)).

(** The longest prefix whose characters satisfy [p]: a greedy [+] or
    [*] over a character class with nothing after it. *)
Fixpoint run (p : N -> bool) (s : pystr) : pystr :=
  match s with
  | [] => []
  | c :: s' => if p c then c :: run p s' else []
  end.

(** The colon, the two slashes and a non-empty greedy run of the
    character class, after a scheme. *)
Definition match_tail (scheme r : pystr) : option pystr :=
  match strip_prefix (lit "://") r with
  | None => None
  | Some r' =>
      match run url_char r' with
      | [] => None
      | c :: t => Some (scheme ++ lit "://" ++ c :: t)
      end
  end.

(** A match of [url_pattern] anchored at the head of [s], giving
    group 1.  The optional [s] is tried first, then skipped. *)
Definition match_url (s : pystr) : option pystr :=
  match strip_prefix (lit "http") s with
  | None => None
  | Some r =>
      let with_s :=
        match strip_prefix (lit "s") r with
        | Some r' => match_tail (lit "https") r'
        | None => None
        end in
      match with_s with
      | Some m => Some m
      | None => match_tail (lit "http") r
      end
  end.

Definition dquote : pystr := [34].
Definition newline : pystr := [10].

(** The replacement template: an anchor whose [href] and whose text
    are both group 1. *)
Definition anchor (m : pystr) : pystr :=
  lit "<a href=" ++ dquote ++ m ++ dquote ++ lit ">" ++ m ++ lit "</a>".

(** [re.sub(url_pattern, repl, s)]: the leftmost match is replaced and
    the scan resumes after it; a character where no match starts is
    copied.  [skip] counts the characters of the current match still to
    be passed over. *)
Fixpoint sub_url_from (skip : nat) (s : pystr) : pystr :=
  match s with
  | [] => []
  | c :: s' =>
      match skip with
      | S k => sub_url_from k s'
      | O =>
          match match_url s with
          | Some m => anchor m ++ sub_url_from (length m - 1) s'
          | None => c :: sub_url_from 0 s'
          end
      end
  end.

Definition sub_url (s : pystr) : pystr := sub_url_from 0 s.

Definition indent : pystr := lit "        ".

Definition convert_to_html (text : pystr) : pystr :=
  let html := replace newline (lit "<br>" ++ newline) text in
  let html := sub_url html in
  newline ++ indent ++ lit "<html>" ++ newline
  ++ indent ++ lit "<body>" ++ newline
  ++ indent ++ html ++ newline
  ++ indent ++ lit "</body>" ++ newline
  ++ indent ++ lit "</html>" ++ newline
  ++ indent.

(** The summary both variants print after the loop, from the word
    [Created] on. *)
Definition summary (success_count total : nat) : pystr :=
  lit "Created " ++ str_of_nat success_count ++ lit " drafts out of "
  ++ str_of_nat total ++ lit " contacts.".

(** ** [main.py]: the remote-API variant *)

Module Remote.

(** What [authenticate] reads of a credentials object. *)
Record credentials := {
  valid : bool;
  expired : bool;
  refresh_token : bool
}.

(** The message handed to the service: [create_draft] wraps it in a
    MIME multipart with one [html] part and base64url-encodes it. *)
Record draft := {
  to : pystr;
  subject : pystr;
  html_body : pystr
}.

(** The world as [main.py] sees it. *)
Class Env (W : Type) := {
  files :: Files W;
  (** [os.path.exists] *)
  path_exists : W -> pystr -> bool;
  (** [pickle.load] of the token file; [None] is an object that is
      false in a condition *)
  load_token : W -> pystr -> result (option credentials);
  (** [creds.refresh(Request())] *)
  refresh : W -> credentials -> W * result credentials;
  (** [InstalledAppFlow.from_client_secrets_file] and
      [flow.run_local_server] *)
  run_flow : W -> pystr -> W * result credentials;
  (** [pickle.dump] to the token file *)
  save_token : W -> pystr -> credentials -> W * result unit;
  (** [build('gmail', 'v1', credentials=creds)] *)
  build : W -> credentials -> W * result unit;
  (** [service.users().drafts().create(userId='me', body=draft).execute()],
      giving the [id] of the result *)
  drafts_create : W -> draft -> W * result pystr
}.

Section WithEnv.
Context {W : Type} `{Env W}.

Definition credentials_file : pystr := lit "credentials.json".
Definition token_file : pystr := lit "token.pickle".

(** [authenticate], called by [__init__]. *)
Definition authenticate : M W unit :=
  let* exists_token := ask (fun w => Ok (path_exists w token_file)) in
  let* creds :=
    (if exists_token : bool then ask (fun w => load_token w token_file)
     else ret None) in
  let* creds :=
    (match creds with
     | Some c =>
         if valid c then ret c
         else
           let* c' :=
             (if expired c && refresh_token c then act (fun w => refresh w c)
              else
                let* exists_cred :=
                  ask (fun w => Ok (path_exists w credentials_file)) in
                if exists_cred : bool then act (fun w => run_flow w credentials_file)
                else raise (FileNotFoundError
                              (lit "Credentials file '" ++ credentials_file
                               ++ lit "' not found. Please download it from Google Cloud Console."))) in
           act (fun w => save_token w token_file c') >>
           ret c'
     | None =>
         let* exists_cred :=
           ask (fun w => Ok (path_exists w credentials_file)) in
         let* c' :=
           (if exists_cred : bool then act (fun w => run_flow w credentials_file)
            else raise (FileNotFoundError
                          (lit "Credentials file '" ++ credentials_file
                           ++ lit "' not found. Please download it from Google Cloud Console."))) in
         act (fun w => save_token w token_file c') >>
         ret c'
     end) in
  act (fun w => build w creds) >>
  print (lit "Successfully authenticated with Gmail API").

(** [process_template]: [%name%] becomes the first name only. *)
Definition process_template (template : pystr) (contact : contact)
  : result pystr :=
  let full_name := get_name contact in
  let? first_name :=
    (if truthy full_name then
       match full_name with
       | PyStr s => index0 (split_ws s)
       | PyNone => Ok []
       end
     else Ok []) in
  Ok (replace placeholder first_name template).

(** [processed_subject], line 167 of [create_drafts_for_contacts]. *)
Definition processed_subject (subject_template : pystr) (name : pyval)
  : result pystr :=
  replace_name subject_template name.

(** [create_draft]: only [HttpError] is handled. *)
Definition create_draft (to_email subject body : pystr) : M W bool :=
  try_except
    (let html_body := convert_to_html body in
     let* id :=
       act (fun w => drafts_create w
                       {| to := to_email; subject := subject;
                          html_body := html_body |}) in
     print (lit "Draft created successfully for " ++ to_email
            ++ lit " (ID: " ++ id ++ lit ")") >>
     ret true)
    (fun e => match e with
              | HttpError m =>
                  print (lit "An error occurred creating draft for "
                         ++ to_email ++ lit ": " ++ m) >>
                  ret false
              | _ => raise e
              end).

(** The [for contact in contacts] loop, with the running
    [success_count]. *)
Fixpoint for_contacts (template subject_template : pystr)
    (contacts : list contact) (success_count : nat) : M W nat :=
  match contacts with
  | [] => ret success_count
  | contact :: rest =>
      let name := get_name contact in
      let email := get_email contact in
      if negb (truthy email) then
        print (lit "Warning: No email found for contact " ++ fmt name) >>
        for_contacts template subject_template rest success_count
      else
        let* processed_body := lift (process_template template contact) in
        let* subject := lift (processed_subject subject_template name) in
        let* created := create_draft (fmt email) subject processed_body in
        for_contacts template subject_template rest
          (if created : bool then S success_count else success_count)
  end.

Definition create_drafts_for_contacts
    (template_file contacts_file subject_template : pystr) : M W unit :=
  try_except
    (let* template := load_template template_file in
     let* contacts := load_contacts contacts_file in
     print (lit "Loaded template from " ++ template_file) >>
     print (lit "Loaded " ++ str_of_nat (length contacts)
            ++ lit " contacts from " ++ contacts_file) >>
     let* success_count :=
       for_contacts template subject_template contacts 0 in
     print (newline ++ lit "Completed! "
            ++ summary success_count (length contacts)))
    (fun e => print (lit "Error: " ++ exn_msg e)).

Definition template_file : pystr := lit "email_template.txt".
Definition contacts_file : pystr := lit "contacts.csv".
Definition subject_template : pystr :=
  lit "Faeling Facture pet commission information".

(** [main]: the value the process exits with. *)
Definition main : M W nat :=
  print (lit "Gmail Draft Creator") >>
  print (List.repeat 61 50) >>
  try_except
    (authenticate >>
     create_drafts_for_contacts template_file contacts_file subject_template >>
     ret 0%nat)
    (fun e => print (lit "Fatal error: " ++ exn_msg e) >> ret 1%nat).

End WithEnv.
End Remote.

(** ** [main_simple.py]: the mailbox-protocol variant *)

Module Simple.

(** The message appended to the Drafts folder: a MIME multipart with
    one [plain] part. *)
Record message := {
  from : pystr;
  to : pystr;
  subject : pystr;
  body : pystr
}.

(** The world as [main_simple.py] sees it. *)
Class Env (W : Type) := {
  files :: Files W;
  (** [imaplib.IMAP4_SSL('imap.gmail.com', 993)] and [imap.login] *)
  imap_login : W -> pystr -> pystr -> W * result unit;
  (** [imap.select] of the Drafts folder and [imap.append] to it *)
  imap_append : W -> message -> W * result unit
}.

(** Pictographs of the printed lines, as code points. *)
Definition check_mark : pystr := [9989].
Definition cross_mark : pystr := [10060].
Definition wrench : pystr := [128295].
Definition e_mail : pystr := [128231].
Definition busts : pystr := [128101].
Definition warning_sign : pystr := [9888; 65039].
Definition party_popper : pystr := [127881].
Definition postbox : pystr := [128238].
Definition collision : pystr := [128165].

(** The credentials as shipped; the file asks for them to be edited. *)
Definition GMAIL_EMAIL_shipped : pystr := lit "your-email@gmail.com".
Definition GMAIL_APP_PASSWORD_shipped : pystr := lit "your-app-password".

Section WithEnv.
Context {W : Type} `{Env W}.
(** The two module-level constants. *)
Variables GMAIL_EMAIL GMAIL_APP_PASSWORD : pystr.

(** [connect_imap], called by [__init__]: a failure is reported and
    raised again. *)
Definition connect_imap : M W unit :=
  try_except
    (act (fun w => imap_login w GMAIL_EMAIL GMAIL_APP_PASSWORD) >>
     print (check_mark ++ lit " Successfully connected to Gmail"))
    (fun e =>
       print (cross_mark ++ lit " Failed to connect to Gmail: " ++ exn_msg e) >>
       print (newline ++ wrench ++ lit " Setup Instructions:") >>
       print (lit "1. Go to https://myaccount.google.com/security") >>
       print (lit "2. Enable 2-Factor Authentication") >>
       print (lit "3. Generate an App Password for 'Mail'") >>
       print (lit "4. Update GMAIL_EMAIL and GMAIL_APP_PASSWORD in this script") >>
       raise e).

(** [process_template]: [%name%] becomes the name as it is. *)
Definition process_template (template : pystr) (contact : contact)
  : result pystr :=
  let name := get_name contact in
  replace_name template name.

(** [processed_subject], line 122 of [create_drafts_for_contacts]. *)
Definition processed_subject (subject_template : pystr) (name : pyval)
  : result pystr :=
  replace_name subject_template name.

(** [create_draft_via_imap]: every exception is handled. *)
Definition create_draft_via_imap (to_email subject body : pystr) : M W bool :=
  try_except
    (act (fun w => imap_append w
                     {| from := GMAIL_EMAIL; to := to_email;
                        subject := subject; body := body |}) >>
     print (check_mark ++ lit " Draft created for " ++ to_email) >>
     ret true)
    (fun e =>
       print (cross_mark ++ lit " Failed to create draft for " ++ to_email
              ++ lit ": " ++ exn_msg e) >>
       ret false).

(** The [for i, contact in enumerate(contacts, 1)] loop; [total] is
    [len(contacts)] of the whole list. *)
Fixpoint for_contacts (template subject_template : pystr) (total : nat)
    (i : nat) (contacts : list contact) (success_count : nat) : M W nat :=
  match contacts with
  | [] => ret success_count
  | contact :: rest =>
      let name := get_name contact in
      let email := get_email contact in
      print (lit "[" ++ str_of_nat i ++ lit "/" ++ str_of_nat total
             ++ lit "] Processing " ++ fmt name ++ lit "...") >>
      if negb (truthy email) then
        print (warning_sign ++ lit "  No email found for " ++ fmt name) >>
        for_contacts template subject_template total (S i) rest success_count
      else
        let* processed_body := lift (process_template template contact) in
        let* subject := lift (processed_subject subject_template name) in
        let* created := create_draft_via_imap (fmt email) subject processed_body in
        for_contacts template subject_template total (S i) rest
          (if created : bool then S success_count else success_count)
  end.

Definition create_drafts_for_contacts
    (template_file contacts_file subject_template : pystr) : M W unit :=
  try_except
    (let* template := load_template template_file in
     let* contacts := load_contacts contacts_file in
     print (e_mail ++ lit " Loaded template from " ++ template_file) >>
     print (busts ++ lit " Loaded " ++ str_of_nat (length contacts)
            ++ lit " contacts from " ++ contacts_file) >>
     print [] >>
     let* success_count :=
       for_contacts template subject_template (length contacts) 1 contacts 0 in
     print (newline ++ party_popper ++ lit " Completed! "
            ++ summary success_count (length contacts)) >>
     print (postbox ++ lit " Check your Gmail Drafts folder!"))
    (fun e => print (collision ++ lit " Error: " ++ exn_msg e)).

Definition template_file : pystr := lit "email_template.txt".
Definition contacts_file : pystr := lit "contacts.csv".
Definition subject_template : pystr := lit "Email for %name%".

(** [main]: the value the process exits with. *)
Definition main : M W nat :=
  print (lit "Gmail Draft Creator - Simple Version") >>
  print (List.repeat 61 50) >>
  if bool_decide (GMAIL_EMAIL = GMAIL_EMAIL_shipped)
     || bool_decide (GMAIL_APP_PASSWORD = GMAIL_APP_PASSWORD_shipped)
  then
    print (cross_mark ++ lit " Please update the credentials at the top of this script:") >>
    print (lit "   - GMAIL_EMAIL: Your Gmail address") >>
    print (lit "   - GMAIL_APP_PASSWORD: Your 16-character app password") >>
    print (newline ++ wrench ++ lit " To get an App Password:") >>
    print (lit "1. Go to https://myaccount.google.com/security") >>
    print (lit "2. Enable 2-Factor Authentication") >>
    print (lit "3. Search for 'App passwords'") >>
    print (lit "4. Generate password for 'Mail'") >>
    print (lit "5. Copy the 16-character password") >>
    ret 1%nat
  else
    try_except
      (connect_imap >>
       create_drafts_for_contacts template_file contacts_file subject_template >>
       ret 0%nat)
      (fun e => print (collision ++ lit " Fatal error: " ++ exn_msg e) >> ret 1%nat).

End WithEnv.
End Simple.

#[export] Existing Instance Remote.files.
#[export] Existing Instance Simple.files.

(** ** A simulated world

    Files are present or absent, a login succeeds or not, and the mail
    system refuses the recipients listed in [refused]; the drafts it
    accepted are recorded in order. *)

Record sim := {
  sim_template : option pystr;
  sim_contacts : option (list contact);
  sim_login_ok : bool;
  refused : list pystr;
  created : list (pystr * pystr * pystr)
}.

Definition sim_add (w : sim) (d : pystr * pystr * pystr) : sim :=
  {| sim_template := sim_template w; sim_contacts := sim_contacts w;
     sim_login_ok := sim_login_ok w; refused := refused w;
     created := created w ++ [d] |}.

Definition sim_read {A} (f : option A) : result A :=
  match f with
  | Some a => Ok a
  | None => Raise (FileNotFoundError (lit "[Errno 2] No such file or directory"))
  end.

#[export] Instance sim_files : Files sim := {
  read_text w _ := sim_read (sim_template w);
  read_rows w _ := sim_read (sim_contacts w)
}.

Definition sim_submit (w : sim) (to subject body : pystr) (err : exn)
  : sim * result unit :=
  if bool_decide (to ∈ refused w) then (w, Raise err)
  else (sim_add w (to, subject, body), Ok tt).

(** No token is stored and the client secrets are present: the
    interactive flow runs, and succeeds when [sim_login_ok]. *)
#[export] Instance sim_remote : Remote.Env sim := {
  Remote.path_exists w f := bool_decide (f = Remote.credentials_file);
  Remote.load_token w _ := Ok None;
  Remote.refresh w c := (w, Ok c);
  Remote.run_flow w _ :=
    if sim_login_ok w
    then (w, Ok {| Remote.valid := true; Remote.expired := false;
                   Remote.refresh_token := true |})
    else (w, Raise (OtherError (lit "access_denied")));
  Remote.save_token w _ _ := (w, Ok tt);
  Remote.build w _ := (w, Ok tt);
  Remote.drafts_create w d :=
    match sim_submit w (Remote.to d) (Remote.subject d) (Remote.html_body d)
            (HttpError (lit "<HttpError 400>")) with
    | (w', Ok _) => (w', Ok (lit "r1"))
    | (w', Raise e) => (w', Raise e)
    end
}.

#[export] Instance sim_simple : Simple.Env sim := {
  Simple.imap_login w _ _ :=
    if sim_login_ok w then (w, Ok tt)
    else (w, Raise (OtherError (lit "[AUTHENTICATIONFAILED] Invalid credentials (Failure)")));
  Simple.imap_append w m :=
    sim_submit w (Simple.to m) (Simple.subject m) (Simple.body m)
      (OtherError (lit "APPEND command error: BAD"))
}.

Definition mk_contact (name email : option pystr) : contact :=
  let c : contact := ∅ in
  let c := match name with Some n => <["name" := PyStr n]> c | None => c end in
  match email with Some e => <["email" := PyStr e]> c | None => c end.

Definition sim0 (template : pystr) (contacts : list contact) : sim :=
  {| sim_template := Some template; sim_contacts := Some contacts;
     sim_login_ok := true; refused := []; created := [] |}.

Definition three_contacts : list contact :=
  [ mk_contact (Some (lit "Jane Q. Public")) (Some (lit "jane@example.com"));
    mk_contact (Some (lit "John Doe")) None;
    mk_contact (Some (lit "Ann")) (Some (lit "ann@example.com")) ].


(** ** Vocabulary of the specification *)

(** [sep.join(pieces)] *)
Fixpoint join (sep : pystr) (pieces : list pystr) : pystr :=
  match pieces with
  | [] => []
  | [p] => p
  | p :: ps => p ++ sep ++ join sep ps
  end.

(** [s.split(sep)] for a non-empty [sep]: the text between the
    occurrences of [sep] found from the left.  The head of the result is
    the piece being read. *)
Fixpoint split_from (skip : nat) (sep s : pystr) : list pystr :=
  match s with
  | [] => [[]]
  | c :: s' =>
      match skip with
      | S k => split_from k sep s'
      | O =>
          match strip_prefix sep s with
          | Some _ => [] :: split_from (length sep - 1) sep s'
          | None =>
              match split_from 0 sep s' with
              | p :: ps => (c :: p) :: ps
              | [] => [[c]]
              end
          end
      end
  end.

Definition split_on (sep s : pystr) : list pystr := split_from 0 sep s.

(** [t] is the first whitespace-delimited token of [name]: it follows
    leading whitespace only, has no whitespace in it, and ends where
    [name] ends or whitespace begins. *)
Definition first_token (name t : pystr) : Prop :=
  exists ws rest,
    name = ws ++ t ++ rest /\
    forallb isspace ws = true /\
    t <> [] /\ forallb (fun c => negb (isspace c)) t = true /\
    (rest = [] \/ exists c r, rest = c :: r /\ isspace c = true).

Definition no_space (s : pystr) : bool := forallb (fun c => negb (isspace c)) s.
Definition all_space (s : pystr) : bool := forallb isspace s.

(** A field is missing from a row when it is absent, or the empty
    string, under both spellings of its column. *)
Definition blank (c : contact) (key : string) : Prop :=
  c !! key = None \/ c !! key = Some (PyStr []).
Definition email_missing (c : contact) : Prop := blank c "email" /\ blank c "Email".
Definition name_missing (c : contact) : Prop := blank c "name" /\ blank c "Name".

(** HTML promotion in one pass over the plain text: a URL is wrapped in
    an anchor, a newline gets a line-break tag before it, any other
    character is kept. *)
Definition br (c : N) : pystr :=
  if c =? 10 then lit "<br>" ++ newline else [c].

Fixpoint promote_from (skip : nat) (s : pystr) : pystr :=
  match s with
  | [] => []
  | c :: s' =>
      match skip with
      | S k => promote_from k s'
      | O =>
          match match_url s with
          | Some m => anchor m ++ promote_from (length m - 1) s'
          | None => br c ++ promote_from 0 s'
          end
      end
  end.

Definition promote (text : pystr) : pystr := promote_from 0 text.

Definition html_open : pystr :=
  newline ++ indent ++ lit "<html>" ++ newline
  ++ indent ++ lit "<body>" ++ newline ++ indent.
Definition html_close : pystr :=
  newline ++ indent ++ lit "</body>" ++ newline
  ++ indent ++ lit "</html>" ++ newline ++ indent.

(** Rows used in the examples below. *)
Definition jane : contact :=
  mk_contact (Some (lit "Jane Q. Public")) (Some (lit "jane@example.com")).
Definition ann : contact :=
  mk_contact (Some (lit "Ann")) (Some (lit "ann@example.com")).
(** A name cell holding one space. *)
Definition blank_name : contact :=
  mk_contact (Some (lit " ")) (Some (lit "a@example.com")).
(** A name cell with a space before the only token. *)
Definition padded_name : contact :=
  mk_contact (Some (lit " Jane")) (Some (lit "jane@example.com")).
(** A row shorter than the header [email,name]: the reader fills the
    missing [name] cell with [None]. *)
Definition short_row : contact :=
  <["name" := PyNone]> (<["email" := PyStr (lit "a@example.com")]> ∅).

(** A world whose mail system refuses drafts addressed to Jane. *)
Definition refusing (template : pystr) (contacts : list contact) : sim :=
  {| sim_template := Some template; sim_contacts := Some contacts;
     sim_login_ok := true; refused := [lit "jane@example.com"]; created := [] |}.

(** [m] is a URL standing at the head of [s]: a scheme [http] or
    [https], the colon and two slashes, then one or more characters
    that are not whitespace, angle brackets or a double quote, as many
    as there are. *)
Definition url_at (s m : pystr) : Prop :=
  exists scheme tail rest,
    (scheme = lit "http" \/ scheme = lit "https") /\
    m = scheme ++ lit "://" ++ tail /\
    tail <> [] /\ forallb url_char tail = true /\
    s = m ++ rest /\
    (rest = [] \/ exists d r, rest = d :: r /\ url_char d = false).

(** The characters a pattern may hold for it to see the same text
    before and after the newlines are tagged: not a newline, not [<]. *)
Definition plain (c : N) : bool := negb ((c =? 10) || (c =? 60)).

(** Worlds in which one of the two input files is absent. *)
Definition no_template : sim :=
  {| sim_template := None; sim_contacts := Some three_contacts;
     sim_login_ok := true; refused := []; created := [] |}.
Definition no_contacts : sim :=
  {| sim_template := Some (lit "Hi %name%"); sim_contacts := None;
     sim_login_ok := true; refused := []; created := [] |}.
Definition no_login : sim :=
  {| sim_template := Some (lit "Hi %name%"); sim_contacts := Some three_contacts;
     sim_login_ok := false; refused := []; created := [] |}.

(** ** Teardown: [__del__] of [SimpleGmailDraftCreator] *)

Module Teardown.

(** The two calls of the session that [__del__] makes. *)
Class Session (W : Type) := {
  (** [imap.close()] *)
  imap_close : W -> W * result unit;
  (** [imap.logout()] *)
  imap_logout : W -> W * result unit
}.

Section WithSession.
Context {W : Type} `{Session W}.

(** [__del__]; [connected] is the truth of [self.imap], which is
    [None] until the connection is made.  The bare [except] takes every
    exception of the two calls. *)
Definition del (connected : bool) : M W unit :=
  if connected then
    try_except (act imap_close >> act imap_logout) (fun _ => ret tt)
  else ret tt.

End WithSession.
End Teardown.

(** The contacts of a list that have an address. *)
Definition with_email (contacts : list contact) : list contact :=
  List.filter (fun c => truthy (get_email c)) contacts.

(** The name cell of a row is a string (not [None]). *)
Definition str_name (c : contact) : bool :=
  match get_name c with
  | PyStr _ => true
  | PyNone => false
  end.

(** A session in which [close] fails, as it does when no mailbox was
    selected; the calls made are recorded. *)
Inductive call := Close | Logout.

#[export] Instance failing_close : Teardown.Session (list call) := {
  Teardown.imap_close w :=
    (w ++ [Close], Raise (OtherError (lit "command CLOSE illegal in state AUTH")));
  Teardown.imap_logout w := (w ++ [Logout], Ok tt)
}.

(** A world whose service fails with an error that is not an HTTP
    error, on every call. *)
Record offline := { calls : nat }.

#[export] Instance offline_files : Files offline := {
  read_text w _ := Ok (lit "Hi %name%");
  read_rows w _ := Ok [jane; ann]
}.

#[export] Instance offline_remote : Remote.Env offline := {
  Remote.path_exists w f := true;
  Remote.load_token w _ :=
    Ok (Some {| Remote.valid := true; Remote.expired := false;
                Remote.refresh_token := true |});
  Remote.refresh w c := (w, Ok c);
  Remote.run_flow w _ := (w, Raise (OtherError (lit "no browser")));
  Remote.save_token w _ _ := (w, Ok tt);
  Remote.build w _ := (w, Ok tt);
  Remote.drafts_create w d :=
    ({| calls := S (calls w) |}, Raise (OtherError (lit "timed out")))
}.

(** The name cell of a row is a string that is empty or has a
    character other than whitespace. *)
Definition renderable (c : contact) : bool :=
  match get_name c with
  | PyStr [] => true
  | PyStr (ch :: s) => negb (all_space (ch :: s))
  | PyNone => false
  end.

(** What [authenticate] finds stored: the credentials unpickled from
    the token file, or nothing when there is no token file. *)
Definition stored_token {W : Type} `{Remote.Env W} (w : W)
  : result (option Remote.credentials) :=
  if Remote.path_exists w Remote.token_file
  then Remote.load_token w Remote.token_file
  else Ok None.

(** The stored credentials can be neither used nor refreshed. *)
Definition must_authorize (o : option Remote.credentials) : bool :=
  match o with
  | None => true
  | Some c => negb (Remote.valid c)
              && negb (Remote.expired c && Remote.refresh_token c)
  end.

Definition missing_credentials : pystr :=
  lit "Credentials file '" ++ Remote.credentials_file
  ++ lit "' not found. Please download it from Google Cloud Console.".

(** A machine on which nothing has been set up: no token file and no
    client secrets file. *)
Inductive fresh_install := FreshInstall.

#[export] Instance fresh_files : Files fresh_install := {
  read_text w _ := Ok (lit "Hi %name%");
  read_rows w _ := Ok [ann]
}.

#[export] Instance fresh_remote : Remote.Env fresh_install := {
  Remote.path_exists w f := false;
  Remote.load_token w _ := Ok None;
  Remote.refresh w c := (w, Ok c);
  Remote.run_flow w _ := (w, Raise (OtherError (lit "no client secrets")));
  Remote.save_token w _ _ := (w, Ok tt);
  Remote.build w _ := (w, Ok tt);
  Remote.drafts_create w d := (w, Ok (lit "r1"))
}.

(** A world with an expired token that can be refreshed and no client
    secrets file; the actions taken are recorded. *)
Inductive auth_call := Refreshed | FlowRun | Saved | Built.

#[export] Instance expired_files : Files (list auth_call) := {
  read_text w _ := Ok (lit "Hi %name%");
  read_rows w _ := Ok []
}.

#[export] Instance expired_remote : Remote.Env (list auth_call) := {
  Remote.path_exists w f := bool_decide (f = Remote.token_file);
  Remote.load_token w _ :=
    Ok (Some {| Remote.valid := false; Remote.expired := true;
                Remote.refresh_token := true |});
  Remote.refresh w c :=
    (w ++ [Refreshed],
     Ok {| Remote.valid := true; Remote.expired := false;
           Remote.refresh_token := true |});
  Remote.run_flow w _ :=
    (w ++ [FlowRun],
     Ok {| Remote.valid := true; Remote.expired := false;
           Remote.refresh_token := true |});
  Remote.save_token w _ _ := (w ++ [Saved], Ok tt);
  Remote.build w _ := (w ++ [Built], Ok tt);
  Remote.drafts_create w d := (w, Ok (lit "r1"))
}.

(** No contact of the list has an address. *)
Definition no_addresses (contacts : list contact) : bool :=
  forallb (fun c => negb (truthy (get_email c))) contacts.

(** A row with an empty [email] cell and a filled [Email] cell. *)
Definition two_email_columns : contact :=
  <["email" := PyStr []]> (<["Email" := PyStr (lit "a@example.com")]>
    (<["name" := PyStr (lit "Ann")]> ∅)).

(** The text has no newline in it. *)
Definition one_line (s : pystr) : bool := forallb (fun c => negb (c =? 10)) s.

(** * Properties *)

(** ** Prefixes *)

Lemma strip_prefix_app (p r : pystr) : strip_prefix p (p ++ r) = Some r.
Proof.
  induction p as [|a p IH]; simpl; [reflexivity|].
  now rewrite N.eqb_refl.
Qed.

Lemma strip_prefix_Some (p s r : pystr) :
  strip_prefix p s = Some r -> s = p ++ r.
Proof.
  revert s. induction p as [|a p IH]; intros s Hs; simpl in *.
  - congruence.
  - destruct s as [|b s]; [discriminate|].
    destruct (N.eqb_spec a b) as [->|]; [|discriminate].
    now rewrite (IH _ Hs).
Qed.

Lemma strip_prefix_None (p s r : pystr) :
  strip_prefix p s = None -> s <> p ++ r.
Proof.
  intros Hn ->. rewrite strip_prefix_app in Hn. discriminate.
Qed.

(** ** [replace], [split] and [join] *)

Section Occurrences.
Variables (a : N) (p : pystr).
Let old : pystr := a :: p.

Lemma replace_from_drop new k s :
  replace_from k old new s = replace_from 0 old new (drop k s).
Proof.
  revert k. induction s as [|c s IH]; intros [|k]; simpl; try reflexivity.
  apply IH.
Qed.

Lemma split_from_drop k s :
  split_from k old s = split_from 0 old (drop k s).
Proof.
  revert k. induction s as [|c s IH]; intros [|k]; simpl; try reflexivity.
  apply IH.
Qed.

Lemma replace_from_hit new r :
  replace_from 0 old new (old ++ r) = new ++ replace_from 0 old new r.
Proof.
  change (old ++ r) with (a :: (p ++ r)).
  cbn [replace_from].
  change (a :: (p ++ r)) with (old ++ r). rewrite strip_prefix_app.
  rewrite replace_from_drop. f_equal. f_equal.
  unfold old. simpl. rewrite Nat.sub_0_r. apply drop_app_length.
Qed.

Lemma split_from_hit r :
  split_from 0 old (old ++ r) = [] :: split_from 0 old r.
Proof.
  change (old ++ r) with (a :: (p ++ r)).
  cbn [split_from].
  change (a :: (p ++ r)) with (old ++ r). rewrite strip_prefix_app.
  rewrite split_from_drop. f_equal. f_equal.
  unfold old. simpl. rewrite Nat.sub_0_r. apply drop_app_length.
Qed.

Lemma replace_from_miss new c s :
  strip_prefix old (c :: s) = None ->
  replace_from 0 old new (c :: s) = c :: replace_from 0 old new s.
Proof. intros Hn. cbn [replace_from]. now rewrite Hn. Qed.

Lemma split_from_miss c s :
  strip_prefix old (c :: s) = None ->
  split_from 0 old (c :: s) =
    match split_from 0 old s with
    | q :: qs => (c :: q) :: qs
    | [] => [[c]]
    end.
Proof. intros Hn. cbn [split_from]. now rewrite Hn. Qed.

Lemma split_from_nonempty s : split_from 0 old s <> [].
Proof.
  destruct s as [|c s]; [discriminate|].
  destruct (strip_prefix old (c :: s)) as [r|] eqn:E.
  - apply strip_prefix_Some in E. rewrite E, split_from_hit. discriminate.
  - rewrite split_from_miss by assumption.
    destruct (split_from 0 old s); discriminate.
Qed.

(** Case analysis on the head of the scan, by the length of the text. *)
Lemma scan_ind (P : pystr -> Prop) :
  P [] ->
  (forall r, P r -> P (old ++ r)) ->
  (forall c s, strip_prefix old (c :: s) = None -> P s -> P (c :: s)) ->
  forall s, P s.
Proof.
  intros Hnil Hhit Hmiss s.
  remember (length s) as n eqn:Hn.
  revert s Hn. induction n as [n IH] using lt_wf_ind. intros s ->.
  destruct s as [|c s]; [exact Hnil|].
  destruct (strip_prefix old (c :: s)) as [r|] eqn:E.
  - rewrite (strip_prefix_Some _ _ _ E). apply Hhit.
    apply (IH (length r)); [|reflexivity].
    apply strip_prefix_Some in E. apply (f_equal length) in E.
    unfold old in E. simpl in E. rewrite length_app in E. simpl. lia.
  - apply Hmiss; [assumption|]. apply (IH (length s)); simpl; [lia|reflexivity].
Qed.

Lemma join_split s : join old (split_on old s) = s.
Proof.
  unfold split_on. induction s as [|r IH|c s Hn IH] using scan_ind.
  - reflexivity.
  - rewrite split_from_hit.
    destruct (split_from 0 old r) as [|q qs] eqn:E.
    + now apply split_from_nonempty in E.
    + cbn [join]. simpl. simpl in IH. now rewrite IH.
  - rewrite split_from_miss by assumption.
    destruct (split_from 0 old s) as [|q qs] eqn:E.
    + now apply split_from_nonempty in E.
    + destruct qs as [|q' qs]; simpl in *; now rewrite IH.
Qed.

Lemma replace_join_split new s :
  replace old new s = join new (split_on old s).
Proof.
  change (replace old new s) with (replace_from 0 old new s).
  unfold split_on.
  induction s as [|r IH|c s Hn IH] using scan_ind.
  - reflexivity.
  - rewrite replace_from_hit, split_from_hit, IH.
    destruct (split_from 0 old r) as [|q qs] eqn:E.
    + now apply split_from_nonempty in E.
    + reflexivity.
  - rewrite replace_from_miss, split_from_miss by assumption. rewrite IH.
    destruct (split_from 0 old s) as [|q qs] eqn:E.
    + now apply split_from_nonempty in E.
    + destruct qs; reflexivity.
Qed.

Lemma contains_nil : contains old [] = false.
Proof. reflexivity. Qed.

Lemma contains_cons_false c s :
  contains old (c :: s) = false <->
  strip_prefix old (c :: s) = None /\ contains old s = false.
Proof.
  cbn [contains]. destruct (strip_prefix old (c :: s)); split; intros Hc;
    try discriminate; try tauto. now destruct Hc.
Qed.

Lemma replace_absent new s :
  contains old s = false -> replace old new s = s.
Proof.
  change (replace old new s) with (replace_from 0 old new s).
  induction s as [|c s IH]; intros Hc; [reflexivity|].
  apply contains_cons_false in Hc as [Hn Hc].
  rewrite replace_from_miss by assumption. now rewrite IH.
Qed.

Lemma join_head q qs : exists tl, join old (q :: qs) = q ++ tl.
Proof.
  destruct qs as [|q' qs]; simpl.
  - exists []. now rewrite app_nil_r.
  - eexists. reflexivity.
Qed.

Lemma split_pieces_free s :
  Forall (fun q => contains old q = false) (split_on old s).
Proof.
  unfold split_on. induction s as [|r IH|c s Hn IH] using scan_ind.
  - repeat constructor.
  - rewrite split_from_hit. constructor; [reflexivity|assumption].
  - rewrite split_from_miss by assumption.
    pose proof (join_split s) as Hj. unfold split_on in Hj.
    destruct (split_from 0 old s) as [|q qs] eqn:E.
    + now apply split_from_nonempty in E.
    + pose proof (Forall_inv IH) as Hq. pose proof (Forall_inv_tail IH) as Hqs.
      constructor; [|assumption].
      apply contains_cons_false. split; [|assumption].
      destruct (strip_prefix old (c :: q)) as [r|] eqn:Eq; [|reflexivity].
      exfalso. apply strip_prefix_Some in Eq.
      destruct (join_head q qs) as [tl Htl]. rewrite Htl in Hj.
      apply (strip_prefix_None _ _ (r ++ tl) Hn).
      rewrite <- Hj. rewrite app_assoc, <- Eq. reflexivity.
Qed.
End Occurrences.

(** ** [split()] on whitespace *)

Lemma split_ws_from_token cur t rest :
  no_space t = true ->
  split_ws_from cur (t ++ rest) = split_ws_from (rev t ++ cur) rest.
Proof.
  revert cur. induction t as [|c t IH]; intros cur Ht; simpl in *; [reflexivity|].
  apply andb_prop in Ht as [Hc Ht]. apply negb_true_iff in Hc. rewrite Hc.
  rewrite IH by assumption. simpl. now rewrite <- app_assoc.
Qed.

Lemma split_ws_leading ws s :
  all_space ws = true -> split_ws (ws ++ s) = split_ws s.
Proof.
  unfold split_ws. induction ws as [|c ws IH]; intros Hws; simpl in *; [reflexivity|].
  apply andb_prop in Hws as [Hc Hws]. rewrite Hc. simpl. now apply IH.
Qed.

Lemma split_ws_all_space s : all_space s = true -> split_ws s = [].
Proof.
  intros Hs. rewrite <- (app_nil_r s). now rewrite split_ws_leading.
Qed.

Lemma flush_rev t k : t <> [] -> flush (rev t) k = t :: k.
Proof.
  intros Hne. unfold flush. destruct (rev t) eqn:E.
  - apply (f_equal (@rev N)) in E. rewrite rev_involutive in E. now subst.
  - rewrite <- E. now rewrite rev_involutive.
Qed.

Lemma split_ws_first name t :
  first_token name t -> exists ts, split_ws name = t :: ts.
Proof.
  intros (ws & rest & -> & Hws & Hne & Ht & Hrest).
  rewrite split_ws_leading by assumption.
  unfold split_ws. rewrite split_ws_from_token by assumption.
  rewrite app_nil_r.
  destruct Hrest as [->|(c & r & -> & Hc)]; simpl.
  - exists []. now apply flush_rev.
  - rewrite Hc. eexists. now apply flush_rev.
Qed.

Lemma split_ws_single s :
  s <> [] -> no_space s = true -> split_ws s = [s].
Proof.
  intros Hne Hs. unfold split_ws.
  rewrite <- (app_nil_r s) at 1.
  rewrite split_ws_from_token by assumption.
  rewrite app_nil_r. simpl. now apply flush_rev.
Qed.

Lemma run_split (f : N -> bool) (u : pystr) :
  exists r, u = run f u ++ r /\ forallb f (run f u) = true /\
            (r = [] \/ exists d r', r = d :: r' /\ f d = false).
Proof.
  induction u as [|d u (r & E1 & E2 & E3)]; simpl.
  - exists []. auto.
  - destruct (f d) eqn:Hd.
    + exists r. simpl. rewrite Hd, E2. repeat split; auto. now rewrite <- E1.
    + exists (d :: u). repeat split; auto. right. now exists d, u.
Qed.

(** A text is whitespace throughout, or has a first token. *)
Lemma split_ws_cases s :
  all_space s = true \/ exists t, first_token s t.
Proof.
  induction s as [|c s IH]; [now left|].
  destruct (isspace c) eqn:Hc.
  - destruct IH as [Hs|(t & ws & rest & -> & Hws & Hne & Ht & Hrest)].
    + left. simpl. now rewrite Hc.
    + right. exists t, (c :: ws), rest. repeat split; auto.
      simpl. now rewrite Hc.
  - right. clear IH.
    destruct (run_split (fun x => negb (isspace x)) s) as (r & E1 & E2 & E3).
    exists (c :: run (fun x => negb (isspace x)) s), [], r.
    repeat split.
    + simpl. now rewrite <- E1.
    + discriminate.
    + simpl. now rewrite Hc, E2.
    + destruct E3 as [->|(d & r' & -> & Hd)]; [now left|right].
      exists d, r'. split; [reflexivity|]. now apply negb_false_iff in Hd.
Qed.

(** ** Contacts *)

Lemma get_blank (c : contact) (key : string) (dflt : pyval) :
  blank c key -> get c key dflt = dflt \/ get c key dflt = PyStr [].
Proof. unfold get. intros [-> | ->]; simpl; auto. Qed.

Lemma get_name_missing (c : contact) : name_missing c -> get_name c = PyStr [].
Proof.
  intros [Hl Hu]. unfold get_name.
  destruct (get_blank c "name" (get c "Name" (PyStr [])) Hl) as [-> | ->]; [|reflexivity].
  destruct (get_blank c "Name" (PyStr []) Hu) as [-> | ->]; reflexivity.
Qed.

Lemma get_email_missing (c : contact) : email_missing c -> get_email c = PyStr [].
Proof.
  intros [Hl Hu]. unfold get_email.
  destruct (get_blank c "email" (get c "Email" (PyStr [])) Hl) as [-> | ->]; [|reflexivity].
  destruct (get_blank c "Email" (PyStr []) Hu) as [-> | ->]; reflexivity.
Qed.

(** ** The two renderers *)

Lemma remote_render_empty template (c : contact) :
  truthy (get_name c) = false ->
  Remote.process_template template c = Ok (replace placeholder [] template).
Proof. unfold Remote.process_template. now intros ->. Qed.

Lemma remote_render_token template (c : contact) name t :
  get_name c = PyStr name -> first_token name t ->
  Remote.process_template template c = Ok (replace placeholder t template).
Proof.
  intros Hn Ht. unfold Remote.process_template. rewrite Hn.
  destruct (split_ws_first _ _ Ht) as [ts Hts].
  assert (name <> []) as Hne.
  { intros ->. discriminate. }
  destruct name; [congruence|]. simpl truthy. cbv iota.
  now rewrite Hts.
Qed.

Lemma remote_render_space template (c : contact) name :
  get_name c = PyStr name -> name <> [] -> all_space name = true ->
  Remote.process_template template c = Raise IndexError.
Proof.
  intros Hn Hne Hs. unfold Remote.process_template. rewrite Hn.
  destruct name; [congruence|]. simpl truthy. cbv iota.
  now rewrite split_ws_all_space.
Qed.

Lemma simple_render template (c : contact) name :
  get_name c = PyStr name ->
  Simple.process_template template c = Ok (replace placeholder name template).
Proof. unfold Simple.process_template. now intros ->. Qed.

Lemma no_space_first_token name :
  name <> [] -> no_space name = true -> first_token name name.
Proof.
  intros Hne Hs. exists [], []. rewrite app_nil_r. repeat split; auto.
Qed.

Lemma all_space_false name :
  all_space name = false <-> exists ch, In ch name /\ isspace ch = false.
Proof.
  unfold all_space. split.
  - induction name as [|c name IH]; simpl; [discriminate|].
    destruct (isspace c) eqn:Hc; simpl.
    + intros Hn. destruct (IH Hn) as (ch & Hin & Hch). eauto.
    + eauto.
  - intros (ch & Hin & Hch).
    destruct (forallb isspace name) eqn:E; [|reflexivity].
    rewrite forallb_forall in E. rewrite (E ch Hin) in Hch. discriminate.
Qed.

Lemma first_token_not_all_space name t :
  first_token name t -> all_space name = false.
Proof.
  intros (ws & rest & -> & _ & Hne & Ht & _).
  destruct t as [|ch t]; [congruence|].
  apply all_space_false. exists ch. split.
  - apply in_or_app. right. now left.
  - simpl in Ht. apply andb_prop in Ht as [Hc _]. now apply negb_true_iff in Hc.
Qed.

(** The positive half of first-name substitution: when the name has a
    first token, every piece of the template between placeholders is
    kept and the token stands where the placeholders stood. *)
Lemma remote_render_pieces template (c : contact) name t :
  get_name c = PyStr name -> first_token name t ->
  let pieces := split_on placeholder template in
  template = join placeholder pieces /\
  Forall (fun q => contains placeholder q = false) pieces /\
  Remote.process_template template c = Ok (join t pieces).
Proof.
  intros Hn Ht pieces. subst pieces. split; [|split].
  - symmetry. apply (join_split 37 (lit "name%")).
  - apply (split_pieces_free 37 (lit "name%")).
  - rewrite (remote_render_token _ _ _ _ Hn Ht). f_equal.
    apply (replace_join_split 37 (lit "name%")).
Qed.

Example render_jane :
  Remote.process_template (lit "Dear %name%, hello %name%!") jane
  = Ok (lit "Dear Jane, hello Jane!").
Proof. vm_compute. reflexivity. Qed.

(** Without a placeholder the template comes back as it is, whenever
    rendering returns at all. *)
Lemma render_without_placeholder template (c : contact) name :
  contains placeholder template = false ->
  get_name c = PyStr name ->
  Simple.process_template template c = Ok template /\
  (name = [] \/ all_space name = false ->
   Remote.process_template template c = Ok template).
Proof.
  intros Hc Hn. split.
  - rewrite (simple_render _ _ _ Hn). f_equal.
    now apply (replace_absent 37 (lit "name%")).
  - intros [-> | Hs].
    + rewrite remote_render_empty by now rewrite Hn. f_equal.
      now apply (replace_absent 37 (lit "name%")).
    + destruct (split_ws_cases name) as [Ha | [t Ht]]; [congruence|].
      rewrite (remote_render_token _ _ _ _ Hn Ht). f_equal.
      now apply (replace_absent 37 (lit "name%")).
Qed.

(** C2. In the remote-API variant a contact whose name is the one-space
    string has a non-empty name, yet [process_template] does not
    substitute anything: taking the first element of the empty split
    raises [IndexError]. *)
Theorem first_name_render_raises_on_blank_name :
  get_name blank_name = PyStr (lit " ") /\
  lit " " <> [] /\
  split_ws (lit " ") = [] /\
  Remote.process_template (lit "Hi %name%") blank_name = Raise IndexError.
Proof. repeat split; vm_compute; congruence. Qed.

(** C5. A template without the placeholder is not always returned
    unchanged: in the remote-API variant a whitespace-only name raises
    [IndexError] before the replacement, and in the mailbox-protocol
    variant a [None] name makes the replacement raise [TypeError]. *)
Theorem identity_render_raises :
  contains placeholder (lit "Hello") = false /\
  Remote.process_template (lit "Hello") blank_name = Raise IndexError /\
  Simple.process_template (lit "Hello") short_row = Raise TypeError.
Proof. repeat split; vm_compute; reflexivity. Qed.

(** C7. When the name is the empty string or absent under both [name]
    and [Name], both renderers return, and the result is the template
    with its placeholders removed: the pieces between the placeholders,
    put together with nothing in between. *)
Theorem missing_name_renders_empty (template : pystr) (c : contact) :
  name_missing c ->
  let pieces := split_on placeholder template in
  template = join placeholder pieces /\
  Remote.process_template template c = Ok (join [] pieces) /\
  Simple.process_template template c = Ok (join [] pieces) /\
  Remote.process_template template c = Ok (replace placeholder [] template).
Proof.
  intros Hm pieces. subst pieces.
  pose proof (get_name_missing c Hm) as Hn.
  rewrite (simple_render _ _ _ Hn).
  rewrite remote_render_empty by now rewrite Hn.
  rewrite (replace_join_split 37 (lit "name%")).
  repeat split. symmetry. apply (join_split 37 (lit "name%")).
Qed.

Lemma missing_name_renders_empty_witness :
  name_missing (mk_contact None (Some (lit "a@example.com"))) /\
  Remote.process_template (lit "Hi %name%!") (mk_contact None (Some (lit "a@example.com")))
  = Ok (lit "Hi !").
Proof.
  assert (Hm : name_missing (mk_contact None (Some (lit "a@example.com")))).
  { split; left; vm_compute; reflexivity. }
  split; [exact Hm|].
  destruct (missing_name_renders_empty (lit "Hi %name%!") _ Hm) as (_ & _ & _ & ->).
  vm_compute. reflexivity.
Defined.

(** C10. For a name that is a string, the remote-API [process_template]
    returns exactly when the name is empty or has a character that is
    not whitespace; for a non-empty name of whitespace only, the first
    element of the split does not exist and [IndexError] is raised
    instead of an empty substitution. *)
Theorem first_name_render_partial (template : pystr) (c : contact) (name : pystr) :
  get_name c = PyStr name ->
  (is_ok (Remote.process_template template c) = true <->
   name = [] \/ exists ch, In ch name /\ isspace ch = false) /\
  (name <> [] -> all_space name = true ->
   Remote.process_template template c = Raise IndexError /\
   Remote.process_template template c <> Ok (replace placeholder [] template)).
Proof.
  intros Hn. split.
  - rewrite <- all_space_false. split.
    + intros Hok. destruct name as [|ch name]; [now left|right].
      destruct (all_space (ch :: name)) eqn:Hs; [|reflexivity].
      rewrite (remote_render_space _ _ _ Hn) in Hok by (auto; discriminate).
      discriminate.
    + intros [-> | Hs].
      * rewrite remote_render_empty by now rewrite Hn. reflexivity.
      * destruct (split_ws_cases name) as [Ha | [t Ht]]; [congruence|].
        now rewrite (remote_render_token _ _ _ _ Hn Ht).
  - intros Hne Hs. rewrite (remote_render_space _ _ _ Hn Hne Hs).
    split; [reflexivity|discriminate].
Qed.

Lemma first_name_render_partial_witness :
  Remote.process_template (lit "Hi %name%") blank_name = Raise IndexError.
Proof.
  assert (Hn : get_name blank_name = PyStr (lit " ")) by (vm_compute; reflexivity).
  destruct (first_name_render_partial (lit "Hi %name%") blank_name (lit " ") Hn)
    as [_ Hr].
  apply Hr; [discriminate | vm_compute; reflexivity].
Defined.

(** C8 as stated fails: a name with a single token may carry
    whitespace around it, which the split drops and the full name
    keeps. *)
Lemma single_token_renderings_differ :
  get_name padded_name = PyStr (lit " Jane") /\
  (length (split_ws (lit " Jane")) <= 1)%nat /\
  Remote.process_template (lit "Hi %name%") padded_name = Ok (lit "Hi Jane") /\
  Simple.process_template (lit "Hi %name%") padded_name = Ok (lit "Hi  Jane") /\
  Remote.process_template (lit "Hi %name%") padded_name
  <> Simple.process_template (lit "Hi %name%") padded_name.
Proof. repeat split; vm_compute; try reflexivity; try lia; discriminate. Qed.

(** C8, amended. The two renderers differ on a name of several tokens,
    and agree whenever the name is a string with no whitespace in it
    (the empty string, and an absent name, included). *)
Theorem renderers_agree_without_whitespace
    (template : pystr) (c : contact) (name : pystr) :
  get_name c = PyStr name ->
  no_space name = true ->
  Remote.process_template template c = Simple.process_template template c /\
  ((2 <= length (split_ws (lit "Jane Q. Public")))%nat /\
   Remote.process_template (lit "Hi %name%") jane = Ok (lit "Hi Jane") /\
   Simple.process_template (lit "Hi %name%") jane = Ok (lit "Hi Jane Q. Public")).
Proof.
  intros Hn Hs. split.
  - rewrite (simple_render _ _ _ Hn). destruct name as [|ch name].
    + now rewrite remote_render_empty by now rewrite Hn.
    + apply (remote_render_token _ _ _ _ Hn).
      now apply no_space_first_token.
  - repeat split; vm_compute; try reflexivity. lia.
Qed.

Lemma renderers_agree_without_whitespace_witness :
  Remote.process_template (lit "Hi %name%") ann
  = Simple.process_template (lit "Hi %name%") ann.
Proof.
  apply (renderers_agree_without_whitespace (lit "Hi %name%") ann (lit "Ann"));
    vm_compute; reflexivity.
Defined.

(** ** Laws of the effect monad *)

Section MonadLaws.
Context {W A B : Type}.
Implicit Types (m : M W A) (k : A -> M W B) (w : W).

Lemma bind_lift_ok (a : A) k w : bind (lift (Ok a)) k w = k a w.
Proof. unfold bind, lift. now destruct (k a w) as [[w2 o2] r]. Qed.

Lemma bind_lift_raise (e : exn) k w :
  bind (lift (Raise e)) k w = (w, [], Raise e).
Proof. reflexivity. Qed.

Lemma outcome_bind m k w :
  outcome (bind m k) w =
    match outcome m w with
    | (w1, Ok a) => outcome (k a) w1
    | (w1, Raise e) => (w1, Raise e)
    end.
Proof.
  unfold outcome, bind. destruct (m w) as [[w1 o1] [a|e]]; [|reflexivity].
  now destruct (k a w1) as [[w2 o2] r].
Qed.

Lemma stdout_bind m k w :
  stdout (bind m k) w =
    match m w with
    | (w1, o1, Ok a) => o1 ++ stdout (k a) w1
    | (_, o1, Raise _) => o1
    end.
Proof.
  unfold stdout, bind. destruct (m w) as [[w1 o1] [a|e]]; [|reflexivity].
  now destruct (k a w1) as [[w2 o2] r].
Qed.

Lemma value_outcome (m' : M W B) w : value m' w = snd (outcome m' w).
Proof. unfold value, outcome. now destruct (m' w) as [[w1 o1] r]. Qed.
End MonadLaws.

Lemma outcome_print_then {W B} (line : pystr) (m : M W B) (w : W) :
  outcome (print line >> m) w = outcome m w.
Proof. now rewrite outcome_bind. Qed.

(** C3 as stated fails: the subject line gets the full name where the
    body gets the first name. *)
Lemma subject_keeps_full_name :
  Remote.processed_subject (lit "Hello %name%") (get_name jane)
  = Ok (lit "Hello Jane Q. Public") /\
  Remote.process_template (lit "Hello %name%") jane = Ok (lit "Hello Jane") /\
  created (fst (outcome
                  (Remote.create_drafts_for_contacts
                     Remote.template_file Remote.contacts_file (lit "Hello %name%"))
                  (sim0 (lit "Hi %name%") [jane])))
  = [(lit "jane@example.com", lit "Hello Jane Q. Public",
      convert_to_html (lit "Hi Jane"))].
Proof. repeat split; vm_compute; reflexivity. Qed.

(** C3, amended. In the remote-API variant the subject is rendered
    with the full name: the loop hands [create_draft] the subject
    template with every placeholder replaced by the contact's name as
    it is, exactly as the mailbox-protocol variant does, and this is
    the body's substitution only when the name has no whitespace. *)
Theorem subject_rendered_with_full_name
    {W : Type} `{Remote.Env W} (template subject_template : pystr)
    (c : contact) (rest : list contact) (n : nat) (name body : pystr) :
  get_name c = PyStr name ->
  truthy (get_email c) = true ->
  Remote.process_template template c = Ok body ->
  let pieces := split_on placeholder subject_template in
  subject_template = join placeholder pieces /\
  Remote.processed_subject subject_template (get_name c) = Ok (join name pieces) /\
  Remote.processed_subject subject_template (get_name c)
  = Simple.processed_subject subject_template (get_name c) /\
  (forall w,
     Remote.for_contacts template subject_template (c :: rest) n w
     = bind (Remote.create_draft (fmt (get_email c)) (join name pieces) body)
         (fun created =>
            Remote.for_contacts template subject_template rest
              (if created : bool then S n else n)) w) /\
  (no_space name = true ->
   Remote.process_template subject_template c
   = Remote.processed_subject subject_template (get_name c)).
Proof.
  intros Hn He Hb pieces. subst pieces.
  assert (Hs : Remote.processed_subject subject_template (get_name c)
               = Ok (join name (split_on placeholder subject_template))).
  { rewrite Hn. unfold Remote.processed_subject, replace_name. f_equal.
    apply (replace_join_split 37 (lit "name%")). }
  split; [symmetry; apply (join_split 37 (lit "name%"))|].
  split; [exact Hs|]. split; [reflexivity|]. split.
  - intros w. cbn [Remote.for_contacts]. rewrite He. cbn [negb].
    rewrite Hb, bind_lift_ok, Hs, bind_lift_ok. reflexivity.
  - intros Hsp. rewrite Hn. unfold Remote.processed_subject, replace_name.
    destruct name as [|ch name].
    + now rewrite remote_render_empty by now rewrite Hn.
    + apply (remote_render_token _ _ _ _ Hn). now apply no_space_first_token.
Qed.

Lemma subject_rendered_with_full_name_witness :
  Remote.processed_subject (lit "Hello %name%") (get_name jane)
  = Ok (join (lit "Jane Q. Public") (split_on placeholder (lit "Hello %name%"))).
Proof.
  refine (proj1 (proj2 (subject_rendered_with_full_name (W := sim)
            (lit "Hi %name%") (lit "Hello %name%") jane [] 0
            (lit "Jane Q. Public") (lit "Hi Jane") _ _ _)));
    vm_compute; reflexivity.
Defined.

(** ** The loop over the contacts *)

Section RemoteLoop.
Context {W : Type} `{Remote.Env W}.
Variables template subject_template : pystr.

Lemma remote_skip (c : contact) rest n (w : W) :
  truthy (get_email c) = false ->
  outcome (Remote.for_contacts template subject_template (c :: rest) n) w
  = outcome (Remote.for_contacts template subject_template rest n) w.
Proof.
  intros He. cbn [Remote.for_contacts]. rewrite He. cbn [negb].
  apply outcome_print_then.
Qed.

Lemma remote_skip_within (c : contact) pre post n (w : W) :
  truthy (get_email c) = false ->
  outcome (Remote.for_contacts template subject_template (pre ++ c :: post) n) w
  = outcome (Remote.for_contacts template subject_template (pre ++ post) n) w.
Proof.
  intros He. revert n w. induction pre as [|a pre IH]; intros n w.
  - now apply remote_skip.
  - cbn [app Remote.for_contacts].
    destruct (negb (truthy (get_email a))).
    + rewrite !outcome_print_then. apply IH.
    + rewrite !outcome_bind.
      destruct (outcome (lift _) w) as [w1 [body|e]]; [|reflexivity].
      rewrite !outcome_bind.
      destruct (outcome (lift _) w1) as [w2 [subj|e]]; [|reflexivity].
      rewrite !outcome_bind.
      destruct (outcome (Remote.create_draft _ _ _) w2) as [w3 [b|e]];
        [apply IH|reflexivity].
Qed.

Lemma remote_summary tf cf (contacts : list contact) k (w : W) :
  read_text w tf = Ok template ->
  read_rows w cf = Ok contacts ->
  value (Remote.for_contacts template subject_template contacts 0) w = Ok k ->
  last (stdout (Remote.create_drafts_for_contacts tf cf subject_template) w)
  = Some (newline ++ lit "Completed! " ++ summary k (length contacts)).
Proof.
  intros Ht Hc Hk.
  unfold Remote.create_drafts_for_contacts, load_template, load_contacts,
    try_except, bind, ask, print, stdout, value in *.
  rewrite Ht, Hc.
  destruct (Remote.for_contacts template subject_template contacts 0 w)
    as [[w1 o1] r]. subst r.
  rewrite !app_assoc. apply last_snoc.
Qed.
End RemoteLoop.

Section SimpleLoop.
Context {W : Type} `{Simple.Env W}.
Variables address template subject_template : pystr.

(** The position and the total only show in the progress lines. *)
Lemma simple_loop_position total total' i i' (contacts : list contact) n (w : W) :
  outcome (Simple.for_contacts address template subject_template total i contacts n) w
  = outcome (Simple.for_contacts address template subject_template total' i' contacts n) w.
Proof.
  revert i i' n w. induction contacts as [|a l IH]; intros i i' n w; [reflexivity|].
  cbn [Simple.for_contacts]. rewrite !outcome_print_then.
  destruct (negb (truthy (get_email a))).
  - rewrite !outcome_print_then. apply IH.
  - rewrite !outcome_bind.
    destruct (outcome (lift _) w) as [w1 [body|e]]; [|reflexivity].
    rewrite !outcome_bind.
    destruct (outcome (lift _) w1) as [w2 [subj|e]]; [|reflexivity].
    rewrite !outcome_bind.
    destruct (outcome (Simple.create_draft_via_imap _ _ _ _) w2) as [w3 [b|e]];
      [apply IH|reflexivity].
Qed.

Lemma simple_skip (c : contact) total i rest n (w : W) :
  truthy (get_email c) = false ->
  outcome (Simple.for_contacts address template subject_template total i (c :: rest) n) w
  = outcome (Simple.for_contacts address template subject_template total i rest n) w.
Proof.
  intros He. cbn [Simple.for_contacts]. rewrite He. cbn [negb].
  rewrite !outcome_print_then. apply simple_loop_position.
Qed.

Lemma simple_skip_within (c : contact) total i pre post n (w : W) :
  truthy (get_email c) = false ->
  outcome (Simple.for_contacts address template subject_template total i
             (pre ++ c :: post) n) w
  = outcome (Simple.for_contacts address template subject_template total i
               (pre ++ post) n) w.
Proof.
  intros He. revert i n w. induction pre as [|a pre IH]; intros i n w.
  - now apply simple_skip.
  - cbn [app Simple.for_contacts]. rewrite !outcome_print_then.
    destruct (negb (truthy (get_email a))).
    + rewrite !outcome_print_then. apply IH.
    + rewrite !outcome_bind.
      destruct (outcome (lift _) w) as [w1 [body|e]]; [|reflexivity].
      rewrite !outcome_bind.
      destruct (outcome (lift _) w1) as [w2 [subj|e]]; [|reflexivity].
      rewrite !outcome_bind.
      destruct (outcome (Simple.create_draft_via_imap _ _ _ _) w2) as [w3 [b|e]];
        [apply IH|reflexivity].
Qed.

Lemma simple_summary tf cf (contacts : list contact) k (w : W) :
  read_text w tf = Ok template ->
  read_rows w cf = Ok contacts ->
  value (Simple.for_contacts address template subject_template
           (length contacts) 1 contacts 0) w = Ok k ->
  exists lines,
    stdout (Simple.create_drafts_for_contacts address tf cf subject_template) w
    = lines ++ [newline ++ Simple.party_popper ++ lit " Completed! "
                ++ summary k (length contacts);
                Simple.postbox ++ lit " Check your Gmail Drafts folder!"].
Proof.
  intros Ht Hc Hk.
  unfold Simple.create_drafts_for_contacts, load_template, load_contacts,
    try_except, bind, ask, print, stdout, value in *.
  rewrite Ht, Hc.
  destruct (Simple.for_contacts address template subject_template
              (length contacts) 1 contacts 0 w) as [[w1 o1] r]. subst r.
  exists ([Simple.e_mail ++ lit " Loaded template from " ++ tf;
           Simple.busts ++ lit " Loaded " ++ str_of_nat (length contacts)
           ++ lit " contacts from " ++ cf; []] ++ o1).
  simpl. try rewrite <- !app_assoc. reflexivity.
Qed.
End SimpleLoop.

(** C1. A contact whose email is empty or absent under both [email]
    and [Email] is passed over: in both variants the loop leaves the
    same world and the same count as on the list without that contact,
    so the contacts after it are processed and it is never counted;
    and when the loop completes, the summary line gives that count out
    of the length of the whole list, the skipped contact included.  With
    three contacts of which the second has no email and the other two
    drafts succeed, the summary reads
    [Created 2 drafts out of 3 contacts.]. *)
Theorem missing_email_is_skipped
    {W1 : Type} `{Remote.Env W1} {W2 : Type} `{Simple.Env W2}
    (address template subject_template tf cf : pystr)
    (pre post : list contact) (c : contact) (n : nat) (w1 : W1) (w2 : W2) :
  email_missing c ->
  (outcome (Remote.for_contacts template subject_template (pre ++ c :: post) n) w1
   = outcome (Remote.for_contacts template subject_template (pre ++ post) n) w1) /\
  (forall total i,
     outcome (Simple.for_contacts address template subject_template total i
                (pre ++ c :: post) n) w2
     = outcome (Simple.for_contacts address template subject_template total i
                  (pre ++ post) n) w2) /\
  (forall k,
     read_text w1 tf = Ok template ->
     read_rows w1 cf = Ok (pre ++ c :: post) ->
     value (Remote.for_contacts template subject_template (pre ++ post) 0) w1 = Ok k ->
     last (stdout (Remote.create_drafts_for_contacts tf cf subject_template) w1)
     = Some (newline ++ lit "Completed! "
             ++ summary k (S (length pre + length post)))) /\
  (forall k,
     read_text w2 tf = Ok template ->
     read_rows w2 cf = Ok (pre ++ c :: post) ->
     value (Simple.for_contacts address template subject_template
              (length pre + length post) 1 (pre ++ post) 0) w2 = Ok k ->
     exists lines,
       stdout (Simple.create_drafts_for_contacts address tf cf subject_template) w2
       = lines ++ [newline ++ Simple.party_popper ++ lit " Completed! "
                   ++ summary k (S (length pre + length post));
                   Simple.postbox ++ lit " Check your Gmail Drafts folder!"]) /\
  (last (stdout Remote.main (sim0 (lit "Hi %name%") three_contacts))
   = Some (newline ++ lit "Completed! Created 2 drafts out of 3 contacts.") /\
   In (newline ++ Simple.party_popper
       ++ lit " Completed! Created 2 drafts out of 3 contacts.")
      (stdout (Simple.main (lit "me@gmail.com") (lit "app-password"))
         (sim0 (lit "Hi %name%") three_contacts))).
Proof.
  intros Hm. pose proof (get_email_missing c Hm) as He.
  assert (Hf : truthy (get_email c) = false) by now rewrite He.
  assert (Hlen : length (pre ++ c :: post) = S (length pre + length post)).
  { rewrite length_app. simpl. lia. }
  split; [now apply remote_skip_within|].
  split; [intros total i; now apply simple_skip_within|].
  split; [|split].
  - intros k Ht Hc Hk. rewrite <- Hlen.
    apply remote_summary with (template := template); [assumption..|].
    rewrite value_outcome in Hk |- *.
    now rewrite remote_skip_within.
  - intros k Ht Hc Hk. rewrite <- Hlen.
    apply simple_summary with (template := template); [assumption..|].
    rewrite value_outcome in Hk |- *.
    rewrite simple_skip_within by assumption.
    now rewrite (simple_loop_position _ _ _ _ (length pre + length post) _ 1).
  - split; vm_compute; [reflexivity|]. tauto.
Qed.

Lemma missing_email_is_skipped_witness :
  email_missing (mk_contact (Some (lit "John Doe")) None) /\
  last (stdout (Remote.create_drafts_for_contacts
                  Remote.template_file Remote.contacts_file Remote.subject_template)
          (sim0 (lit "Hi %name%") three_contacts))
  = Some (newline ++ lit "Completed! " ++ summary 2 3).
Proof.
  assert (Hm : email_missing (mk_contact (Some (lit "John Doe")) None)).
  { split; left; vm_compute; reflexivity. }
  split; [exact Hm|].
  refine (proj1 (proj2 (proj2
            (missing_email_is_skipped (W1 := sim) (W2 := sim)
               (lit "me@gmail.com") (lit "Hi %name%") Remote.subject_template
               Remote.template_file Remote.contacts_file
               [jane] [ann] (mk_contact (Some (lit "John Doe")) None) 0
               (sim0 (lit "Hi %name%") three_contacts)
               (sim0 (lit "Hi %name%") three_contacts) Hm))) 2%nat _ _ _);
    vm_compute; reflexivity.
Defined.

(** C9. In the remote-API variant, when the draft-create call for a
    contact raises an HTTP error, [create_draft] catches it and returns
    [False]; the loop goes on with the next contact from the world the
    call left, and the count is not raised. *)
Theorem http_error_is_recovered
    {W : Type} `{Remote.Env W} (template subject_template : pystr)
    (c : contact) (rest : list contact) (n : nat)
    (name body msg : pystr) (w w' : W) :
  get_name c = PyStr name ->
  truthy (get_email c) = true ->
  Remote.process_template template c = Ok body ->
  Remote.drafts_create w
    {| Remote.to := fmt (get_email c);
       Remote.subject := replace placeholder name subject_template;
       Remote.html_body := convert_to_html body |}
  = (w', Raise (HttpError msg)) ->
  outcome (Remote.create_draft (fmt (get_email c))
             (replace placeholder name subject_template) body) w
  = (w', Ok false) /\
  outcome (Remote.for_contacts template subject_template (c :: rest) n) w
  = outcome (Remote.for_contacts template subject_template rest n) w'.
Proof.
  intros Hn He Hb Hd.
  assert (Hc : outcome (Remote.create_draft (fmt (get_email c))
                          (replace placeholder name subject_template) body) w
               = (w', Ok false)).
  { unfold Remote.create_draft, try_except, bind, act, outcome.
    rewrite Hd. reflexivity. }
  split; [exact Hc|].
  cbn [Remote.for_contacts]. rewrite He. cbn [negb].
  rewrite outcome_bind, Hb. cbn [outcome lift].
  rewrite outcome_bind, Hn. cbn [outcome lift Remote.processed_subject replace_name].
  rewrite outcome_bind, Hc. reflexivity.
Qed.

Lemma http_error_is_recovered_witness :
  outcome (Remote.for_contacts (lit "Hi %name%") (lit "For %name%") [jane; ann] 0)
    (refusing (lit "Hi %name%") [jane; ann])
  = outcome (Remote.for_contacts (lit "Hi %name%") (lit "For %name%") [ann] 0)
      (refusing (lit "Hi %name%") [jane; ann]).
Proof.
  refine (proj2 (http_error_is_recovered (W := sim)
            (lit "Hi %name%") (lit "For %name%") jane [ann] 0
            (lit "Jane Q. Public") (lit "Hi Jane") (lit "<HttpError 400>")
            (refusing (lit "Hi %name%") [jane; ann])
            (refusing (lit "Hi %name%") [jane; ann]) _ _ _ _));
    vm_compute; reflexivity.
Defined.

(** ** Exit codes *)

Lemma remote_run_returns {W : Type} `{Remote.Env W} (tf cf st : pystr) (w : W) :
  exists w' o, Remote.create_drafts_for_contacts tf cf st w = (w', o, Ok tt).
Proof.
  unfold Remote.create_drafts_for_contacts, try_except.
  match goal with |- context [match ?b w with _ => _ end] => destruct (b w) as [[w1 o1] [[]|e]] end.
  - eauto.
  - unfold print. eauto.
Qed.

Lemma simple_run_returns {W : Type} `{Simple.Env W} (a tf cf st : pystr) (w : W) :
  exists w' o, Simple.create_drafts_for_contacts a tf cf st w = (w', o, Ok tt).
Proof.
  unfold Simple.create_drafts_for_contacts, try_except.
  match goal with |- context [match ?b w with _ => _ end] => destruct (b w) as [[w1 o1] [[]|e]] end.
  - eauto.
  - unfold print. eauto.
Qed.

Lemma remote_exit {W : Type} `{Remote.Env W} (w : W) :
  value Remote.main w
  = Ok (if is_ok (value Remote.authenticate w) then 0 else 1)%nat.
Proof.
  unfold Remote.main, value, bind, print, try_except, ret.
  destruct (Remote.authenticate w) as [[w1 o1] [[]|e]]; [|reflexivity].
  destruct (remote_run_returns Remote.template_file Remote.contacts_file
              Remote.subject_template w1) as (w2 & o2 & ->).
  reflexivity.
Qed.

Lemma simple_login {W : Type} `{Simple.Env W} (a pw : pystr) (w : W) :
  is_ok (value (Simple.connect_imap a pw) w) = is_ok (snd (Simple.imap_login w a pw)).
Proof.
  unfold Simple.connect_imap, value, try_except, bind, act, print, raise.
  destruct (Simple.imap_login w a pw) as [w1 [[]|e]]; reflexivity.
Qed.

Lemma simple_exit {W : Type} `{Simple.Env W} (a pw : pystr) (w : W) :
  value (Simple.main a pw) w
  = Ok (if bool_decide (a = Simple.GMAIL_EMAIL_shipped)
           || bool_decide (pw = Simple.GMAIL_APP_PASSWORD_shipped)
        then 1
        else if is_ok (value (Simple.connect_imap a pw) w) then 0 else 1)%nat.
Proof.
  unfold Simple.main.
  destruct (bool_decide (a = Simple.GMAIL_EMAIL_shipped)
            || bool_decide (pw = Simple.GMAIL_APP_PASSWORD_shipped)).
  - reflexivity.
  - unfold value, bind, print, try_except, ret.
    destruct (Simple.connect_imap a pw w) as [[w1 o1] [[]|e]]; [|reflexivity].
    destruct (simple_run_returns a Simple.template_file Simple.contacts_file
                Simple.subject_template w1) as (w2 & o2 & ->).
    reflexivity.
Qed.

(** C4 as stated fails: with the template file missing, or the
    contacts file missing, the error is printed and the exit code is 0,
    in both variants. *)
Lemma missing_file_exits_zero :
  (read_text no_template Remote.template_file
   = Raise (FileNotFoundError (lit "[Errno 2] No such file or directory")) /\
   value Remote.main no_template = Ok 0%nat /\
   last (stdout Remote.main no_template)
   = Some (lit "Error: Template file 'email_template.txt' not found") /\
   value (Simple.main (lit "me@gmail.com") (lit "app-password")) no_template
   = Ok 0%nat) /\
  (read_rows no_contacts Remote.contacts_file
   = Raise (FileNotFoundError (lit "[Errno 2] No such file or directory")) /\
   value Remote.main no_contacts = Ok 0%nat /\
   last (stdout Remote.main no_contacts)
   = Some (lit "Error: Contacts file 'contacts.csv' not found") /\
   value (Simple.main (lit "me@gmail.com") (lit "app-password")) no_contacts
   = Ok 0%nat).
Proof. repeat split; vm_compute; reflexivity. Qed.

(** C4, amended. The exit code depends on the set-up of the session
    alone.  The remote-API variant exits 0 when [authenticate] returns
    and 1 when it raises; the mailbox-protocol variant exits 1 while a
    credential constant has its shipped value or when the login raises,
    and 0 otherwise.  What happens after that (a draft that is refused,
    a template or contacts file that is missing) is printed and leaves
    the exit code at 0. *)
Theorem exit_code_follows_login
    {W1 : Type} `{Remote.Env W1} {W2 : Type} `{Simple.Env W2}
    (address password : pystr) (w1 : W1) (w2 : W2) :
  value Remote.main w1
  = Ok (if is_ok (value Remote.authenticate w1) then 0 else 1)%nat /\
  value (Simple.main address password) w2
  = Ok (if bool_decide (address = Simple.GMAIL_EMAIL_shipped)
           || bool_decide (password = Simple.GMAIL_APP_PASSWORD_shipped)
        then 1
        else if is_ok (snd (Simple.imap_login w2 address password)) then 0 else 1)%nat /\
  (value Remote.main (refusing (lit "Hi %name%") [jane; ann]) = Ok 0%nat /\
   value Remote.main no_login = Ok 1%nat /\
   value (Simple.main (lit "me@gmail.com") (lit "app-password")) no_login = Ok 1%nat /\
   value (Simple.main Simple.GMAIL_EMAIL_shipped Simple.GMAIL_APP_PASSWORD_shipped)
     (sim0 (lit "Hi %name%") three_contacts) = Ok 1%nat).
Proof.
  split; [apply remote_exit|]. split.
  - rewrite simple_exit. now rewrite simple_login.
  - repeat split; vm_compute; reflexivity.
Qed.

(** ** HTML promotion *)

Lemma run_app (f : N -> bool) (tail rest : pystr) :
  forallb f tail = true ->
  (rest = [] \/ exists d r, rest = d :: r /\ f d = false) ->
  run f (tail ++ rest) = tail.
Proof.
  intros Ht Hr. induction tail as [|c tail IH]; simpl in *.
  - destruct Hr as [->|(d & r & -> & Hd)]; simpl; [reflexivity|now rewrite Hd].
  - apply andb_prop in Ht as [Hc Ht]. rewrite Hc. now rewrite IH.
Qed.

Lemma match_tail_sound scheme r m :
  match_tail scheme r = Some m ->
  exists tail rest,
    m = scheme ++ lit "://" ++ tail /\ tail <> [] /\
    forallb url_char tail = true /\
    r = lit "://" ++ tail ++ rest /\
    (rest = [] \/ exists d r', rest = d :: r' /\ url_char d = false).
Proof.
  unfold match_tail. destruct (strip_prefix (lit "://") r) as [r'|] eqn:E; [|discriminate].
  apply strip_prefix_Some in E. subst r.
  destruct (run_split url_char r') as (rest & E1 & E2 & E3).
  destruct (run url_char r') as [|c t] eqn:Er; [discriminate|].
  intros [= <-]. exists (c :: t), rest.
  split; [reflexivity|]. split; [discriminate|]. split; [exact E2|].
  split; [now rewrite E1 at 1|exact E3].
Qed.

Lemma match_tail_complete scheme tail rest :
  tail <> [] -> forallb url_char tail = true ->
  (rest = [] \/ exists d r, rest = d :: r /\ url_char d = false) ->
  match_tail scheme (lit "://" ++ tail ++ rest) = Some (scheme ++ lit "://" ++ tail).
Proof.
  intros Hne Ht Hr. unfold match_tail. rewrite strip_prefix_app.
  rewrite run_app by assumption. destruct tail; [congruence|reflexivity].
Qed.

Lemma match_url_spec s m : match_url s = Some m <-> url_at s m.
Proof.
  split.
  - unfold match_url.
    destruct (strip_prefix (lit "http") s) as [r|] eqn:E; [|discriminate].
    apply strip_prefix_Some in E. subst s.
    destruct (strip_prefix (lit "s") r) as [r'|] eqn:Es.
    + apply strip_prefix_Some in Es. subst r.
      destruct (match_tail (lit "https") r') as [m'|] eqn:Em.
      * intros [= <-].
        destruct (match_tail_sound _ _ _ Em) as (tail & rest & -> & Hne & Ht & -> & Hr).
        exists (lit "https"), tail, rest. repeat split; auto.
      * intros Hm. destruct (match_tail_sound _ _ _ Hm) as (tail & rest & _ & _ & _ & Hb & _).
        discriminate.
    + intros Hm.
      destruct (match_tail_sound _ _ _ Hm) as (tail & rest & -> & Hne & Ht & -> & Hr).
      exists (lit "http"), tail, rest. repeat split; auto.
  - intros (scheme & tail & rest & Hs & -> & Hne & Ht & -> & Hr).
    unfold match_url. destruct Hs as [-> | ->].
    + rewrite <- !app_assoc. rewrite strip_prefix_app.
      replace (strip_prefix (lit "s") (lit "://" ++ tail ++ rest)) with (@None pystr)
        by reflexivity.
      now apply match_tail_complete.
    + change (lit "https") with (lit "http" ++ lit "s").
      rewrite <- !app_assoc. rewrite strip_prefix_app.
      rewrite strip_prefix_app.
      change (lit "http" ++ lit "s" ++ lit "://" ++ tail)
        with (lit "https" ++ lit "://" ++ tail).
      now rewrite match_tail_complete.
Qed.

Lemma url_at_nonempty s m : url_at s m -> exists c t rest, m = c :: t /\ s = m ++ rest.
Proof.
  intros (scheme & tail & rest & [-> | ->] & -> & _ & _ & -> & _);
    eexists _, _, rest; split; reflexivity.
Qed.

Lemma sub_url_from_drop k s : sub_url_from k s = sub_url_from 0 (drop k s).
Proof.
  revert k. induction s as [|c s IH]; intros [|k]; simpl; try reflexivity.
  apply IH.
Qed.

Lemma promote_from_drop k s : promote_from k s = promote_from 0 (drop k s).
Proof.
  revert k. induction s as [|c s IH]; intros [|k]; simpl; try reflexivity.
  apply IH.
Qed.

Lemma sub_url_hit m rest :
  match_url (m ++ rest) = Some m -> sub_url (m ++ rest) = anchor m ++ sub_url rest.
Proof.
  intros Hm. destruct (proj1 (match_url_spec _ _) Hm) as (scheme & tail & _ & _ & -> & _).
  unfold sub_url.
  destruct (url_at_nonempty _ _ (proj1 (match_url_spec _ _) Hm)) as (c & t & _ & E & _).
  rewrite E in Hm |- *. cbn [app sub_url_from]. cbn [app] in Hm. rewrite Hm.
  rewrite sub_url_from_drop.
  replace (length (c :: t) - 1)%nat with (length t) by (simpl; lia).
  now rewrite drop_app_length.
Qed.

Lemma promote_hit m rest :
  match_url (m ++ rest) = Some m -> promote (m ++ rest) = anchor m ++ promote rest.
Proof.
  intros Hm. unfold promote.
  destruct (url_at_nonempty _ _ (proj1 (match_url_spec _ _) Hm)) as (c & t & _ & E & _).
  rewrite E in Hm |- *. cbn [app promote_from]. cbn [app] in Hm. rewrite Hm.
  rewrite promote_from_drop.
  replace (length (c :: t) - 1)%nat with (length t) by (simpl; lia).
  now rewrite drop_app_length.
Qed.

(** The first pass puts a line-break tag before every newline. *)
Lemma replace_newline text :
  replace newline (lit "<br>" ++ newline) text = flat_map br text.
Proof.
  change (replace newline (lit "<br>" ++ newline) text)
    with (replace_from 0 newline (lit "<br>" ++ newline) text).
  unfold newline.
  induction text as [|c text IH]; [reflexivity|].
  cbn [flat_map]. unfold br at 1. destruct (N.eqb_spec c 10) as [->|Hc].
  - rewrite <- IH. exact (replace_from_hit 10 [] (lit "<br>" ++ [10]) text).
  - rewrite <- IH. apply (replace_from_miss 10 [] (lit "<br>" ++ [10])).
    cbn [strip_prefix]. destruct (N.eqb_spec 10 c); congruence.
Qed.

(** A pattern without newline and without [<] sees the same text
    before and after the first pass. *)
Lemma strip_prefix_br p s :
  forallb plain p = true ->
  strip_prefix p (flat_map br s) = option_map (flat_map br) (strip_prefix p s).
Proof.
  revert s. induction p as [|a p IH]; intros s Hp; [reflexivity|].
  simpl in Hp. apply andb_prop in Hp as [Ha Hp].
  unfold plain in Ha. apply negb_true_iff, orb_false_elim in Ha as [Ha1 Ha2].
  destruct s as [|c s]; [reflexivity|].
  cbn [flat_map]. unfold br at 1. destruct (N.eqb_spec c 10) as [->|Hc].
  - change ((lit "<br>" ++ newline) ++ flat_map br s)
      with (60 :: (lit "br>" ++ newline) ++ flat_map br s).
    cbn [strip_prefix]. now rewrite Ha1, Ha2.
  - cbn [app strip_prefix]. destruct (a =? c); [now apply IH|reflexivity].
Qed.

Lemma run_url_br s : run url_char (flat_map br s) = run url_char s.
Proof.
  induction s as [|c s IH]; [reflexivity|].
  cbn [flat_map]. unfold br at 1. destruct (N.eqb_spec c 10) as [->|Hc].
  - reflexivity.
  - simpl. now rewrite IH.
Qed.

Lemma match_tail_br scheme r :
  match_tail scheme (flat_map br r) = match_tail scheme r.
Proof.
  unfold match_tail. rewrite strip_prefix_br by reflexivity.
  destruct (strip_prefix (lit "://") r) as [r'|]; [|reflexivity].
  simpl option_map. cbv iota. now rewrite run_url_br.
Qed.

Lemma match_url_br s : match_url (flat_map br s) = match_url s.
Proof.
  unfold match_url. rewrite strip_prefix_br by reflexivity.
  destruct (strip_prefix (lit "http") s) as [r|]; [|reflexivity].
  simpl option_map. cbv iota. rewrite strip_prefix_br by reflexivity.
  rewrite match_tail_br.
  destruct (strip_prefix (lit "s") r) as [r'|]; [|reflexivity].
  simpl option_map. cbv iota. now rewrite match_tail_br.
Qed.

Lemma url_char_not_newline c : url_char c = true -> br c = [c].
Proof.
  unfold br. destruct (N.eqb_spec c 10) as [->|]; [discriminate|reflexivity].
Qed.

Lemma flat_map_br_url s m : url_at s m -> flat_map br m = m.
Proof.
  intros (scheme & tail & rest & Hs & -> & _ & Ht & _ & _).
  rewrite !flat_map_app.
  assert (Htail : flat_map br tail = tail).
  { clear -Ht. induction tail as [|c t IH]; [reflexivity|].
    simpl in Ht. apply andb_prop in Ht as [Hc Ht].
    cbn [flat_map]. rewrite (url_char_not_newline _ Hc). simpl. now rewrite IH. }
  rewrite Htail. destruct Hs as [-> | ->]; reflexivity.
Qed.

(** The two passes of [convert_to_html] do what one pass over the
    plain text does. *)
Lemma sub_url_after_br text : sub_url (flat_map br text) = promote text.
Proof.
  remember (length text) as n eqn:Hn. revert text Hn.
  induction n as [n IH] using lt_wf_ind. intros text ->.
  destruct text as [|c text]; [reflexivity|].
  destruct (match_url (c :: text)) as [m|] eqn:Em.
  - pose proof (proj1 (match_url_spec _ _) Em) as Hu.
    destruct (url_at_nonempty _ _ Hu) as (c' & t' & rest & Hm & Hs).
    rewrite Hs in Em |- *. rewrite flat_map_app, (flat_map_br_url _ _ Hu).
    rewrite promote_hit by assumption.
    rewrite sub_url_hit.
    + f_equal. apply (IH (length rest)); [|reflexivity].
      apply (f_equal (@length N)) in Hs. rewrite length_app, Hm in Hs.
      simpl in Hs. simpl. lia.
    + rewrite <- (flat_map_br_url _ _ Hu) at 1. rewrite <- flat_map_app.
      now rewrite match_url_br.
  - assert (Hp : promote (c :: text) = br c ++ promote text).
    { unfold promote. cbn [promote_from]. now rewrite Em. }
    rewrite Hp, <- (IH (length text)) by (simpl; lia || reflexivity).
    pose proof (match_url_br (c :: text)) as Hb. rewrite Em in Hb.
    cbn [flat_map] in Hb |- *.
    destruct (N.eqb_spec c 10) as [->|Hc].
    + reflexivity.
    + assert (Hbr : br c = [c]).
      { unfold br. destruct (N.eqb_spec c 10); congruence. }
      rewrite Hbr in Hb |- *. unfold sub_url.
      cbn [app sub_url_from]. cbn [app] in Hb. now rewrite Hb.
Qed.

(** C6. The document made from [Visit http://example.com now] holds
    the anchor whose [href] and whose text are both the URL, between
    [Visit ] and [ now] kept as they are.  For every text, the document
    is the text promoted in one pass inside the fixed frame: a URL
    ([http] or [https], colon, two slashes, then as many characters as
    follow that are not whitespace, angle brackets or a double quote,
    at least one) standing where the scan is becomes an anchor around
    itself, and any other character is kept, a newline getting a
    line-break tag before it. *)
Theorem html_promotion :
  convert_to_html (lit "Visit http://example.com now")
  = html_open ++ lit "Visit "
    ++ (lit "<a href=" ++ dquote ++ lit "http://example.com" ++ dquote
        ++ lit ">http://example.com</a>")
    ++ lit " now" ++ html_close /\
  (forall text, convert_to_html text = html_open ++ promote text ++ html_close) /\
  promote [] = [] /\
  (forall m rest, url_at (m ++ rest) m ->
     promote (m ++ rest) = anchor m ++ promote rest) /\
  (forall c text, (forall m, ~ url_at (c :: text) m) ->
     promote (c :: text)
     = (if c =? 10 then lit "<br>" ++ newline else [c]) ++ promote text).
Proof.
  split; [vm_compute; reflexivity|]. split; [|split; [reflexivity|split]].
  - intros text. unfold convert_to_html, html_open, html_close.
    rewrite replace_newline, sub_url_after_br.
    now rewrite <- !app_assoc.
  - intros m rest Hu. apply promote_hit. now apply match_url_spec.
  - intros c text Hno. unfold promote. cbn [promote_from].
    destruct (match_url (c :: text)) as [m|] eqn:Em; [|reflexivity].
    apply match_url_spec in Em. now apply Hno in Em.
Qed.

Lemma html_promotion_witness :
  url_at (lit "http://example.com now") (lit "http://example.com") /\
  promote (lit "http://example.com now")
  = anchor (lit "http://example.com") ++ promote (lit " now").
Proof.
  assert (Hu : url_at (lit "http://example.com" ++ lit " now") (lit "http://example.com")).
  { exists (lit "http"), (lit "example.com"), (lit " now").
    repeat split; try reflexivity; [left; reflexivity | discriminate |].
    right. exists 32, (lit "now"). split; reflexivity. }
  split; [exact Hu|].
  exact (proj1 (proj2 (proj2 (proj2 html_promotion))) _ _ Hu).
Defined.

(** * Further properties of the code *)

(** ** Composition in the effect monad *)

Lemma bind_ret_l {W A B} (a : A) (k : A -> M W B) (w : W) :
  bind (ret a) k w = k a w.
Proof. unfold bind, ret. now destruct (k a w) as [[w2 o2] r]. Qed.

Lemma bind_assoc {W A B C} (m : M W A) (f : A -> M W B) (g : B -> M W C) (w : W) :
  bind (bind m f) g w = bind m (fun x => bind (f x) g) w.
Proof.
  unfold bind. destruct (m w) as [[w1 o1] [a|e]]; [|reflexivity].
  destruct (f a w1) as [[w2 o2] [b|e]]; [|reflexivity].
  destruct (g b w2) as [[w3 o3] r]. now rewrite app_assoc.
Qed.

Lemma bind_ext {W A B} (m : M W A) (k k' : A -> M W B) (w : W) :
  (forall a w', k a w' = k' a w') -> bind m k w = bind m k' w.
Proof.
  intros Hk. unfold bind. destruct (m w) as [[w1 o1] [a|e]]; [|reflexivity].
  now rewrite Hk.
Qed.

Lemma remote_loop_app {W : Type} `{Remote.Env W} (template st : pystr)
    (pre post : list contact) (n : nat) (w : W) :
  Remote.for_contacts template st (pre ++ post) n w
  = bind (Remote.for_contacts template st pre n)
      (fun k => Remote.for_contacts template st post k) w.
Proof.
  revert n w. induction pre as [|a pre IH]; intros n w.
  - cbn [app Remote.for_contacts]. now rewrite bind_ret_l.
  - cbn [app Remote.for_contacts].
    destruct (negb (truthy (get_email a))).
    + rewrite bind_assoc. apply bind_ext. intros _ w'. apply IH.
    + rewrite bind_assoc. apply bind_ext. intros body w1.
      rewrite bind_assoc. apply bind_ext. intros subj w2.
      rewrite bind_assoc. apply bind_ext. intros b w3. apply IH.
Qed.

Lemma simple_loop_app {W : Type} `{Simple.Env W} (address template st : pystr)
    (total i : nat) (pre post : list contact) (n : nat) (w : W) :
  Simple.for_contacts address template st total i (pre ++ post) n w
  = bind (Simple.for_contacts address template st total i pre n)
      (fun k => Simple.for_contacts address template st total
                  (i + length pre) post k) w.
Proof.
  revert i n w. induction pre as [|a pre IH]; intros i n w.
  - cbn [app Simple.for_contacts length]. rewrite Nat.add_0_r.
    now rewrite bind_ret_l.
  - cbn [app Simple.for_contacts length].
    rewrite bind_assoc. apply bind_ext. intros _ w0.
    replace (i + S (length pre))%nat with (S i + length pre)%nat by lia.
    destruct (negb (truthy (get_email a))).
    + rewrite bind_assoc. apply bind_ext. intros _ w'. apply IH.
    + rewrite bind_assoc. apply bind_ext. intros body w1.
      rewrite bind_assoc. apply bind_ext. intros subj w2.
      rewrite bind_assoc. apply bind_ext. intros b w3. apply IH.
Qed.

(** X1. The loop over a list in two parts is the loop over the first
    part followed by the loop over the second, started from the world
    and the count the first one left, in both variants; the output is
    the two outputs one after the other, and an exception in the first
    part ends the run there. *)
Theorem loop_in_two_parts
    {W1 : Type} `{Remote.Env W1} {W2 : Type} `{Simple.Env W2}
    (address template st : pystr) (total i : nat)
    (pre post : list contact) (n : nat) (w1 : W1) (w2 : W2) :
  Remote.for_contacts template st (pre ++ post) n w1
  = bind (Remote.for_contacts template st pre n)
      (fun k => Remote.for_contacts template st post k) w1 /\
  Simple.for_contacts address template st total i (pre ++ post) n w2
  = bind (Simple.for_contacts address template st total i pre n)
      (fun k => Simple.for_contacts address template st total
                  (i + length pre) post k) w2.
Proof. split; [apply remote_loop_app | apply simple_loop_app]. Qed.

(** ** A whole run, from what the loop did *)

Lemma remote_run_result {W : Type} `{Remote.Env W} (tf cf st template : pystr)
    (contacts : list contact) (w w1 : W) (o1 : list pystr) (r : result nat) :
  read_text w tf = Ok template ->
  read_rows w cf = Ok contacts ->
  Remote.for_contacts template st contacts 0 w = (w1, o1, r) ->
  Remote.create_drafts_for_contacts tf cf st w
  = (w1,
     [lit "Loaded template from " ++ tf;
      lit "Loaded " ++ str_of_nat (length contacts) ++ lit " contacts from " ++ cf]
     ++ o1
     ++ [match r with
         | Ok k => newline ++ lit "Completed! " ++ summary k (length contacts)
         | Raise e => lit "Error: " ++ exn_msg e
         end],
     Ok tt).
Proof.
  intros Ht Hc Hl.
  unfold Remote.create_drafts_for_contacts, load_template, load_contacts,
    try_except, bind, ask, print.
  rewrite Ht, Hc, Hl. destruct r as [k|e]; simpl; try rewrite app_nil_r;
    reflexivity.
Qed.

Lemma simple_run_result {W : Type} `{Simple.Env W} (a tf cf st template : pystr)
    (contacts : list contact) (w w1 : W) (o1 : list pystr) (r : result nat) :
  read_text w tf = Ok template ->
  read_rows w cf = Ok contacts ->
  Simple.for_contacts a template st (length contacts) 1 contacts 0 w = (w1, o1, r) ->
  Simple.create_drafts_for_contacts a tf cf st w
  = (w1,
     [Simple.e_mail ++ lit " Loaded template from " ++ tf;
      Simple.busts ++ lit " Loaded " ++ str_of_nat (length contacts)
      ++ lit " contacts from " ++ cf;
      []]
     ++ o1
     ++ match r with
        | Ok k => [newline ++ Simple.party_popper ++ lit " Completed! "
                   ++ summary k (length contacts);
                   Simple.postbox ++ lit " Check your Gmail Drafts folder!"]
        | Raise e => [Simple.collision ++ lit " Error: " ++ exn_msg e]
        end,
     Ok tt).
Proof.
  intros Ht Hc Hl.
  unfold Simple.create_drafts_for_contacts, load_template, load_contacts,
    try_except, bind, ask, print.
  rewrite Ht, Hc, Hl. destruct r as [k|e]; simpl; try rewrite app_nil_r;
    reflexivity.
Qed.

Lemma remote_step_render_raises {W : Type} `{Remote.Env W} (template st : pystr)
    (c : contact) (post : list contact) (n : nat) (e : exn) (w : W) :
  truthy (get_email c) = true ->
  Remote.process_template template c = Raise e ->
  Remote.for_contacts template st (c :: post) n w = (w, [], Raise e).
Proof.
  intros He Hr. cbn [Remote.for_contacts]. rewrite He, Hr. reflexivity.
Qed.

Lemma remote_step_subject_raises {W : Type} `{Remote.Env W} (template st : pystr)
    (c : contact) (post : list contact) (n : nat) (w : W) :
  truthy (get_email c) = true ->
  get_name c = PyNone ->
  Remote.for_contacts template st (c :: post) n w = (w, [], Raise TypeError).
Proof.
  intros He Hn. cbn [Remote.for_contacts]. rewrite He. cbn [negb].
  rewrite remote_render_empty by now rewrite Hn.
  rewrite bind_lift_ok, Hn. reflexivity.
Qed.

Lemma simple_step_raises {W : Type} `{Simple.Env W} (a template st : pystr)
    (total i : nat) (c : contact) (post : list contact) (n : nat) (w : W) :
  truthy (get_email c) = true ->
  get_name c = PyNone ->
  Simple.for_contacts a template st total i (c :: post) n w
  = (w, [lit "[" ++ str_of_nat i ++ lit "/" ++ str_of_nat total
         ++ lit "] Processing None..."], Raise TypeError).
Proof.
  intros He Hn. cbn [Simple.for_contacts]. rewrite He. cbn [negb].
  unfold Simple.process_template. rewrite Hn. reflexivity.
Qed.

(** X2. In the remote-API variant a contact that has an address and a
    non-empty name of whitespace only stops the run: the world is the
    one the contacts before it left, so no contact after it gets a
    draft, no summary is printed, and the last line printed is
    [Error: list index out of range]. *)
Theorem blank_name_stops_run
    {W : Type} `{Remote.Env W} (tf cf st template name : pystr)
    (pre post : list contact) (c : contact) (k : nat)
    (w w1 : W) (o1 : list pystr) :
  truthy (get_email c) = true ->
  get_name c = PyStr name -> name <> [] -> all_space name = true ->
  read_text w tf = Ok template ->
  read_rows w cf = Ok (pre ++ c :: post) ->
  Remote.for_contacts template st pre 0 w = (w1, o1, Ok k) ->
  Remote.create_drafts_for_contacts tf cf st w
  = (w1,
     [lit "Loaded template from " ++ tf;
      lit "Loaded " ++ str_of_nat (length (pre ++ c :: post))
      ++ lit " contacts from " ++ cf]
     ++ o1 ++ [lit "Error: list index out of range"],
     Ok tt).
Proof.
  intros He Hn Hne Hs Ht Hc Hpre.
  rewrite (remote_run_result tf cf st template (pre ++ c :: post) w w1 o1
             (Raise IndexError) Ht Hc); [reflexivity|].
  rewrite remote_loop_app. unfold bind. rewrite Hpre.
  rewrite (remote_step_render_raises template st c post k IndexError w1 He
             (remote_render_space _ _ _ Hn Hne Hs)).
  now rewrite app_nil_r.
Qed.

Lemma blank_name_stops_run_witness :
  created (fst (outcome
                  (Remote.create_drafts_for_contacts
                     Remote.template_file Remote.contacts_file Remote.subject_template)
                  (sim0 (lit "Hi %name%") [jane; blank_name; ann])))
  = [(lit "jane@example.com", Remote.subject_template,
      convert_to_html (lit "Hi Jane"))].
Proof.
  unfold outcome.
  rewrite (blank_name_stops_run (W := sim)
             Remote.template_file Remote.contacts_file Remote.subject_template
             (lit "Hi %name%") (lit " ") [jane] [ann] blank_name 1
             (sim0 (lit "Hi %name%") [jane; blank_name; ann])
             (sim_add (sim0 (lit "Hi %name%") [jane; blank_name; ann])
                (lit "jane@example.com", Remote.subject_template,
                 convert_to_html (lit "Hi Jane")))
             [lit "Draft created successfully for jane@example.com (ID: r1)"]);
    try (vm_compute; reflexivity).
  discriminate.
Defined.

(** X3. A row whose name cell is [None] (a row shorter than the
    header) and that has an address stops the run in both variants with
    a [TypeError] raised by [str.replace]: by the subject line in the
    remote-API variant, whose body rendering takes [None] as an empty
    name, and by the body in the mailbox-protocol variant.  Nothing is
    submitted for that row or for the rows after it. *)
Theorem none_name_stops_run
    {W1 : Type} `{Remote.Env W1} {W2 : Type} `{Simple.Env W2}
    (address tf cf st template : pystr)
    (pre post : list contact) (c : contact) (k1 k2 : nat)
    (w1 v1 : W1) (w2 v2 : W2) (o1 o2 : list pystr) :
  truthy (get_email c) = true ->
  get_name c = PyNone ->
  (Remote.process_template template c = Ok (replace placeholder [] template) /\
   Simple.process_template template c = Raise TypeError) /\
  (read_text w1 tf = Ok template ->
   read_rows w1 cf = Ok (pre ++ c :: post) ->
   Remote.for_contacts template st pre 0 w1 = (v1, o1, Ok k1) ->
   outcome (Remote.create_drafts_for_contacts tf cf st) w1 = (v1, Ok tt) /\
   last (stdout (Remote.create_drafts_for_contacts tf cf st) w1)
   = Some (lit "Error: replace() argument 2 must be str, not None")) /\
  (read_text w2 tf = Ok template ->
   read_rows w2 cf = Ok (pre ++ c :: post) ->
   Simple.for_contacts address template st (length (pre ++ c :: post)) 1 pre 0 w2
   = (v2, o2, Ok k2) ->
   outcome (Simple.create_drafts_for_contacts address tf cf st) w2 = (v2, Ok tt) /\
   last (stdout (Simple.create_drafts_for_contacts address tf cf st) w2)
   = Some (Simple.collision
           ++ lit " Error: replace() argument 2 must be str, not None")).
Proof.
  intros He Hn. split; [|split].
  - split.
    + apply remote_render_empty. now rewrite Hn.
    + unfold Simple.process_template. now rewrite Hn.
  - intros Ht Hc Hpre.
    assert (Hl : Remote.for_contacts template st (pre ++ c :: post) 0 w1
                 = (v1, o1, Raise TypeError)).
    { rewrite remote_loop_app. unfold bind. rewrite Hpre.
      rewrite remote_step_subject_raises by assumption. now rewrite app_nil_r. }
    unfold outcome, stdout.
    rewrite (remote_run_result tf cf st template _ w1 v1 o1 _ Ht Hc Hl).
    split; [reflexivity|]. rewrite app_assoc. apply last_snoc.
  - intros Ht Hc Hpre.
    pose proof (simple_loop_app address template st (length (pre ++ c :: post)) 1
                  pre (c :: post) 0 w2) as Hl.
    unfold bind in Hl. rewrite Hpre in Hl.
    rewrite simple_step_raises in Hl by assumption.
    unfold outcome, stdout.
    rewrite (simple_run_result address tf cf st template _ w2 v2 _ _ Ht Hc Hl).
    split; [reflexivity|]. rewrite app_assoc. apply last_snoc.
Qed.

Lemma none_name_stops_run_witness :
  Remote.process_template (lit "Hi %name%") short_row = Ok (lit "Hi ") /\
  Simple.process_template (lit "Hi %name%") short_row = Raise TypeError.
Proof.
  refine (proj1 (none_name_stops_run (W1 := sim) (W2 := sim)
            (lit "me@gmail.com") Remote.template_file Remote.contacts_file
            (lit "For %name%") (lit "Hi %name%") [] [ann] short_row 0 0
            (sim0 (lit "Hi %name%") [short_row; ann])
            (sim0 (lit "Hi %name%") [short_row; ann])
            (sim0 (lit "Hi %name%") [short_row; ann])
            (sim0 (lit "Hi %name%") [short_row; ann]) [] [] _ _));
    vm_compute; reflexivity.
Defined.

(** ** The success count *)

Lemma remote_count_bounds {W : Type} `{Remote.Env W} (template st : pystr)
    (contacts : list contact) (n k : nat) (w w' : W) (o : list pystr) :
  Remote.for_contacts template st contacts n w = (w', o, Ok k) ->
  (n <= k <= n + length (with_email contacts))%nat.
Proof.
  revert n w o. induction contacts as [|a l IH]; intros n w o Hr.
  - cbn in Hr. injection Hr as _ _ <-. simpl. lia.
  - cbn [Remote.for_contacts] in Hr. unfold with_email. cbn [List.filter].
    fold (with_email l).
    destruct (truthy (get_email a)) eqn:He; cbn [negb] in Hr.
    + destruct (Remote.process_template template a) as [body|e];
        [rewrite bind_lift_ok in Hr | rewrite bind_lift_raise in Hr; discriminate].
      destruct (Remote.processed_subject st (get_name a)) as [subj|e];
        [rewrite bind_lift_ok in Hr | rewrite bind_lift_raise in Hr; discriminate].
      unfold bind in Hr.
      destruct (Remote.create_draft (fmt (get_email a)) subj body w)
        as [[w3 o3] [b|e]]; [|discriminate].
      destruct (Remote.for_contacts template st l (if b then S n else n) w3)
        as [[w4 o4] r] eqn:E.
      injection Hr as -> _ ->. apply IH in E. destruct b; simpl; lia.
    + unfold bind, print in Hr.
      destruct (Remote.for_contacts template st l n w) as [[w4 o4] r] eqn:E.
      injection Hr as -> _ ->. apply IH in E. lia.
Qed.

Lemma simple_create_returns {W : Type} `{Simple.Env W} (a to subj body : pystr) (w : W) :
  exists w' line,
    Simple.create_draft_via_imap a to subj body w
    = (w', [line], Ok (is_ok (snd (Simple.imap_append w
                {| Simple.from := a; Simple.to := to;
                   Simple.subject := subj; Simple.body := body |})))) /\
    w' = fst (Simple.imap_append w
                {| Simple.from := a; Simple.to := to;
                   Simple.subject := subj; Simple.body := body |}).
Proof.
  unfold Simple.create_draft_via_imap, try_except, bind, act, print, ret.
  destruct (Simple.imap_append w _) as [w1 [[]|e]]; simpl; eauto.
Qed.

Lemma simple_count_bounds {W : Type} `{Simple.Env W} (a template st : pystr)
    (total i : nat) (contacts : list contact) (n k : nat) (w w' : W) (o : list pystr) :
  Simple.for_contacts a template st total i contacts n w = (w', o, Ok k) ->
  (n <= k <= n + length (with_email contacts))%nat.
Proof.
  revert i n w o. induction contacts as [|c l IH]; intros i n w o Hr.
  - cbn in Hr. injection Hr as _ _ <-. simpl. lia.
  - cbn [Simple.for_contacts] in Hr. unfold with_email. cbn [List.filter].
    fold (with_email l).
    destruct (truthy (get_email c)) eqn:He; cbn [negb] in Hr.
    + unfold bind at 1, print at 1 in Hr.
      destruct (Simple.process_template template c) as [body|e];
        [rewrite bind_lift_ok in Hr | rewrite bind_lift_raise in Hr; discriminate].
      destruct (Simple.processed_subject st (get_name c)) as [subj|e];
        [rewrite bind_lift_ok in Hr | rewrite bind_lift_raise in Hr; discriminate].
      unfold bind in Hr.
      destruct (Simple.create_draft_via_imap a (fmt (get_email c)) subj body w)
        as [[w3 o3] [b|e]]; [|discriminate].
      destruct (Simple.for_contacts a template st total (S i) l
                  (if b then S n else n) w3) as [[w4 o4] r] eqn:E.
      injection Hr as -> _ ->. apply IH in E. destruct b; simpl; lia.
    + unfold bind, print in Hr.
      destruct (Simple.for_contacts a template st total (S i) l n w)
        as [[w4 o4] r] eqn:E.
      injection Hr as -> _ ->. apply IH in E. lia.
Qed.

(** X4. When the loop completes, the count it returns is the count it
    started from plus at most one per contact that has an address: the
    summary never reports more drafts than there are contacts with an
    address, in either variant. *)
Theorem success_count_bounded
    {W1 : Type} `{Remote.Env W1} {W2 : Type} `{Simple.Env W2}
    (address template st : pystr) (total i : nat)
    (contacts : list contact) (n k : nat)
    (w1 v1 : W1) (w2 v2 : W2) (o1 o2 : list pystr) :
  (Remote.for_contacts template st contacts n w1 = (v1, o1, Ok k) ->
   (n <= k <= n + length (with_email contacts))%nat /\
   (length (with_email contacts) <= length contacts)%nat) /\
  (Simple.for_contacts address template st total i contacts n w2 = (v2, o2, Ok k) ->
   (n <= k <= n + length (with_email contacts))%nat /\
   (length (with_email contacts) <= length contacts)%nat).
Proof.
  split; intros Hr; (split; [|apply filter_length_le]).
  - eapply remote_count_bounds; eassumption.
  - eapply simple_count_bounds; eassumption.
Qed.

Lemma success_count_bounded_witness :
  (0 <= 2 <= 0 + length (with_email three_contacts))%nat.
Proof.
  refine (proj1 (proj1 (success_count_bounded (W1 := sim) (W2 := sim)
            (lit "me@gmail.com") (lit "Hi %name%") (lit "For %name%") 3 1
            three_contacts 0 2
            (sim0 (lit "Hi %name%") three_contacts)
            (fst (outcome (Remote.for_contacts (lit "Hi %name%") (lit "For %name%")
                             three_contacts 0)
                    (sim0 (lit "Hi %name%") three_contacts)))
            (sim0 (lit "Hi %name%") three_contacts)
            (sim0 (lit "Hi %name%") three_contacts)
            (stdout (Remote.for_contacts (lit "Hi %name%") (lit "For %name%")
                       three_contacts 0)
               (sim0 (lit "Hi %name%") three_contacts)) []) _)).
  vm_compute. reflexivity.
Defined.

(** ** Runs that reach the summary *)

Lemma simple_loop_completes {W : Type} `{Simple.Env W} (a template st : pystr)
    (total i : nat) (contacts : list contact) (n : nat) (w : W) :
  forallb str_name contacts = true ->
  exists w' o k,
    Simple.for_contacts a template st total i contacts n w = (w', o, Ok k).
Proof.
  revert i n w. induction contacts as [|c l IH]; intros i n w Hs.
  - cbn. eauto.
  - cbn [forallb] in Hs. apply andb_prop in Hs as [Hc Hl].
    unfold str_name in Hc. destruct (get_name c) as [|name] eqn:Hn; [discriminate|].
    cbn [Simple.for_contacts]. rewrite Hn. unfold bind at 1, print at 1.
    destruct (negb (truthy (get_email c))).
    + unfold bind, print.
      destruct (IH (S i) n w Hl) as (w' & o & k & ->). eauto.
    + unfold Simple.process_template, Simple.processed_subject. rewrite Hn.
      cbn [replace_name]. rewrite !bind_lift_ok. unfold bind.
      destruct (simple_create_returns a (fmt (get_email c))
                  (replace placeholder name st) (replace placeholder name template) w)
        as (w1 & line & -> & _).
      match goal with
      | |- context [Simple.for_contacts a template st total (S i) l ?m w1] =>
          destruct (IH (S i) m w1 Hl) as (w' & o & k & ->)
      end. eauto.
Qed.

(** X5. In the mailbox-protocol variant, when both files load and
    every name cell is a string, the run reaches the summary whatever
    the mail server answers: [create_draft_via_imap] turns every
    exception into [False].  The count in the summary is at most the
    number of contacts that have an address. *)
Theorem mailbox_run_reaches_summary
    {W : Type} `{Simple.Env W} (address tf cf st template : pystr)
    (contacts : list contact) (w : W) :
  forallb str_name contacts = true ->
  read_text w tf = Ok template ->
  read_rows w cf = Ok contacts ->
  exists k lines,
    (k <= length (with_email contacts))%nat /\
    stdout (Simple.create_drafts_for_contacts address tf cf st) w
    = lines ++ [newline ++ Simple.party_popper ++ lit " Completed! "
                ++ summary k (length contacts);
                Simple.postbox ++ lit " Check your Gmail Drafts folder!"].
Proof.
  intros Hs Ht Hc.
  destruct (simple_loop_completes address template st (length contacts) 1
              contacts 0 w Hs) as (w' & o & k & Hl).
  exists k. eexists. split.
  - apply simple_count_bounds in Hl. lia.
  - unfold stdout.
    rewrite (simple_run_result address tf cf st template contacts w w' o (Ok k) Ht Hc Hl).
    rewrite app_assoc. reflexivity.
Qed.

Lemma mailbox_run_reaches_summary_witness :
  exists k lines,
    (k <= length (with_email three_contacts))%nat /\
    stdout (Simple.create_drafts_for_contacts (lit "me@gmail.com")
              Simple.template_file Simple.contacts_file Simple.subject_template)
      (refusing (lit "Hi %name%") three_contacts)
    = lines ++ [newline ++ Simple.party_popper ++ lit " Completed! "
                ++ summary k (length three_contacts);
                Simple.postbox ++ lit " Check your Gmail Drafts folder!"].
Proof.
  apply (mailbox_run_reaches_summary (W := sim) (lit "me@gmail.com")
           Simple.template_file Simple.contacts_file Simple.subject_template
           (lit "Hi %name%") three_contacts (refusing (lit "Hi %name%") three_contacts));
    vm_compute; reflexivity.
Defined.

Lemma renderable_renders (template st : pystr) (c : contact) :
  renderable c = true ->
  exists name body,
    get_name c = PyStr name /\
    Remote.process_template template c = Ok body /\
    Remote.processed_subject st (get_name c) = Ok (replace placeholder name st).
Proof.
  unfold renderable. intros Hr.
  destruct (get_name c) as [|name] eqn:Hn; [discriminate|].
  exists name. destruct name as [|ch name].
  - eexists. split; [reflexivity|]. split; [|reflexivity].
    apply remote_render_empty. now rewrite Hn.
  - apply negb_true_iff in Hr.
    destruct (split_ws_cases (ch :: name)) as [Ha | [t Ht]]; [congruence|].
    eexists. split; [reflexivity|]. split; [|reflexivity].
    apply (remote_render_token _ _ _ _ Hn Ht).
Qed.

Lemma remote_create_returns {W : Type} `{Remote.Env W} (to subj body : pystr) (w : W) :
  (forall e, snd (Remote.drafts_create w
                    {| Remote.to := to; Remote.subject := subj;
                       Remote.html_body := convert_to_html body |}) = Raise e ->
             exists msg, e = HttpError msg) ->
  exists w' o b, Remote.create_draft to subj body w = (w', o, Ok b).
Proof.
  intros Hsvc. unfold Remote.create_draft, try_except, bind, act, print, ret.
  destruct (Remote.drafts_create w _) as [w1 [id|e]]; simpl in *; [eauto|].
  destruct (Hsvc e eq_refl) as [msg ->]. eauto.
Qed.

Lemma remote_loop_completes {W : Type} `{Remote.Env W} (template st : pystr)
    (contacts : list contact) (n : nat) (w : W) :
  (forall w d e, snd (Remote.drafts_create w d) = Raise e -> exists msg, e = HttpError msg) ->
  forallb renderable contacts = true ->
  exists w' o k, Remote.for_contacts template st contacts n w = (w', o, Ok k).
Proof.
  intros Hsvc. revert n w. induction contacts as [|c l IH]; intros n w Hs.
  - cbn. eauto.
  - cbn [forallb] in Hs. apply andb_prop in Hs as [Hc Hl].
    destruct (renderable_renders template st c Hc) as (name & body & Hn & Hb & Hsub).
    cbn [Remote.for_contacts].
    destruct (negb (truthy (get_email c))).
    + unfold bind, print.
      destruct (IH n w Hl) as (w' & o & k & ->). eauto.
    + rewrite Hb, bind_lift_ok, Hsub, bind_lift_ok. unfold bind.
      destruct (remote_create_returns (fmt (get_email c))
                  (replace placeholder name st) body w (Hsvc w _))
        as (w1 & o1 & b & ->).
      match goal with
      | |- context [Remote.for_contacts template st l ?m w1] =>
          destruct (IH m w1 Hl) as (w' & o & k & ->)
      end. eauto.
Qed.



(** ** One contact, by what the mail system answers *)

(** X7. In the remote-API variant an exception of the draft-create
    call that is not an HTTP error is not caught by [create_draft]: the
    loop ends there with that exception, the contacts after it are not
    submitted, and the run prints it as its last line in place of the
    summary. *)
Theorem other_error_stops_run
    {W : Type} `{Remote.Env W} (tf cf st template : pystr)
    (c : contact) (post : list contact) (name body : pystr) (e : exn) (w w' : W) :
  get_name c = PyStr name ->
  truthy (get_email c) = true ->
  Remote.process_template template c = Ok body ->
  Remote.drafts_create w
    {| Remote.to := fmt (get_email c);
       Remote.subject := replace placeholder name st;
       Remote.html_body := convert_to_html body |} = (w', Raise e) ->
  (forall msg, e <> HttpError msg) ->
  (forall n, Remote.for_contacts template st (c :: post) n w = (w', [], Raise e)) /\
  (read_text w tf = Ok template ->
   read_rows w cf = Ok (c :: post) ->
   Remote.create_drafts_for_contacts tf cf st w
   = (w',
      [lit "Loaded template from " ++ tf;
       lit "Loaded " ++ str_of_nat (length (c :: post)) ++ lit " contacts from " ++ cf;
       lit "Error: " ++ exn_msg e],
      Ok tt)).
Proof.
  intros Hn He Hb Hd Hne.
  assert (Hstep : forall n,
            Remote.for_contacts template st (c :: post) n w = (w', [], Raise e)).
  { intros n. cbn [Remote.for_contacts]. rewrite He. cbn [negb].
    rewrite Hb, bind_lift_ok, Hn. cbn [Remote.processed_subject replace_name].
    rewrite bind_lift_ok.
    unfold bind at 1, Remote.create_draft, try_except, bind, act. rewrite Hd.
    destruct e as [| |m|m|m]; try reflexivity. now destruct (Hne m). }
  split; [exact Hstep|].
  intros Ht Hc.
  now rewrite (remote_run_result tf cf st template (c :: post) w w' [] (Raise e)
                 Ht Hc (Hstep 0%nat)).
Qed.

Lemma other_error_stops_run_witness :
  outcome (Remote.create_drafts_for_contacts
             Remote.template_file Remote.contacts_file Remote.subject_template)
    {| calls := 0 |}
  = ({| calls := 1 |}, Ok tt).
Proof.
  assert (Hne : forall msg, OtherError (lit "timed out") <> HttpError msg)
    by (intros msg; discriminate).
  assert (Hd : Remote.drafts_create {| calls := 0 |}
                 {| Remote.to := fmt (get_email jane);
                    Remote.subject :=
                      replace placeholder (lit "Jane Q. Public") Remote.subject_template;
                    Remote.html_body := convert_to_html (lit "Hi Jane") |}
               = ({| calls := 1 |}, Raise (OtherError (lit "timed out"))))
    by reflexivity.
  assert (Hn : get_name jane = PyStr (lit "Jane Q. Public")) by (vm_compute; reflexivity).
  assert (He : truthy (get_email jane) = true) by (vm_compute; reflexivity).
  assert (Hb : Remote.process_template (lit "Hi %name%") jane = Ok (lit "Hi Jane"))
    by (vm_compute; reflexivity).
  unfold outcome.
  rewrite (proj2 (other_error_stops_run
             Remote.template_file Remote.contacts_file Remote.subject_template
             (lit "Hi %name%") jane [ann] (lit "Jane Q. Public") (lit "Hi Jane")
             (OtherError (lit "timed out")) {| calls := 0 |} {| calls := 1 |}
             Hn He Hb Hd Hne) eq_refl eq_refl).
  reflexivity.
Defined.

(** X8. In the remote-API variant, when the service accepts the draft
    of a contact, the line with the recipient and the identifier the
    service gave is printed and the loop goes on from the world the
    call left with the count raised by one.  The message submitted has
    the contact's address, the subject with the full name, and the
    body rendered with the first name and promoted to HTML. *)
Theorem accepted_draft_is_counted
    {W : Type} `{Remote.Env W} (st template : pystr)
    (c : contact) (post : list contact) (name body id : pystr) (n : nat) (w w' : W) :
  get_name c = PyStr name ->
  truthy (get_email c) = true ->
  Remote.process_template template c = Ok body ->
  Remote.drafts_create w
    {| Remote.to := fmt (get_email c);
       Remote.subject := replace placeholder name st;
       Remote.html_body := convert_to_html body |} = (w', Ok id) ->
  Remote.for_contacts template st (c :: post) n w
  = bind (print (lit "Draft created successfully for " ++ fmt (get_email c)
                 ++ lit " (ID: " ++ id ++ lit ")"))
      (fun _ => Remote.for_contacts template st post (S n)) w'.
Proof.
  intros Hn He Hb Hd.
  cbn [Remote.for_contacts]. rewrite He. cbn [negb].
  rewrite Hb, bind_lift_ok, Hn. cbn [Remote.processed_subject replace_name].
  rewrite bind_lift_ok.
  unfold bind at 1, Remote.create_draft, try_except, bind, act, print, ret.
  rewrite Hd.
  destruct (Remote.for_contacts template st post (S n) w') as [[w2 o2] r].
  reflexivity.
Qed.

Lemma accepted_draft_is_counted_witness :
  value (Remote.for_contacts (lit "Hi %name%") (lit "For %name%") [ann] 0)
    (sim0 (lit "Hi %name%") [ann])
  = Ok 1%nat.
Proof.
  assert (Hn : get_name ann = PyStr (lit "Ann")) by (vm_compute; reflexivity).
  assert (He : truthy (get_email ann) = true) by (vm_compute; reflexivity).
  assert (Hb : Remote.process_template (lit "Hi %name%") ann = Ok (lit "Hi Ann"))
    by (vm_compute; reflexivity).
  assert (Hd : Remote.drafts_create (sim0 (lit "Hi %name%") [ann])
                 {| Remote.to := fmt (get_email ann);
                    Remote.subject := replace placeholder (lit "Ann") (lit "For %name%");
                    Remote.html_body := convert_to_html (lit "Hi Ann") |}
               = (sim_add (sim0 (lit "Hi %name%") [ann])
                    (lit "ann@example.com", lit "For Ann", convert_to_html (lit "Hi Ann")),
                  Ok (lit "r1")))
    by (vm_compute; reflexivity).
  unfold value.
  rewrite (accepted_draft_is_counted (lit "For %name%") (lit "Hi %name%") ann []
             (lit "Ann") (lit "Hi Ann") (lit "r1") 0 _ _ Hn He Hb Hd).
  reflexivity.
Defined.



(** ** [authenticate] *)

Lemma authenticate_stored {W : Type} `{Remote.Env W} (w : W)
    (o : option Remote.credentials) :
  stored_token w = Ok o ->
  Remote.authenticate w
  = bind (match o with
          | Some c =>
              if Remote.valid c then ret c
              else
                let* c' :=
                  (if Remote.expired c && Remote.refresh_token c
                   then act (fun w => Remote.refresh w c)
                   else
                     let* exists_cred :=
                       ask (fun w => Ok (Remote.path_exists w Remote.credentials_file)) in
                     if exists_cred : bool
                     then act (fun w => Remote.run_flow w Remote.credentials_file)
                     else raise (FileNotFoundError missing_credentials)) in
                act (fun w => Remote.save_token w Remote.token_file c') >>
                ret c'
          | None =>
              let* exists_cred :=
                ask (fun w => Ok (Remote.path_exists w Remote.credentials_file)) in
              let* c' :=
                (if exists_cred : bool
                 then act (fun w => Remote.run_flow w Remote.credentials_file)
                 else raise (FileNotFoundError missing_credentials)) in
              act (fun w => Remote.save_token w Remote.token_file c') >>
              ret c'
          end)
      (fun creds =>
         act (fun w => Remote.build w creds) >>
         print (lit "Successfully authenticated with Gmail API")) w.
Proof.
  unfold stored_token. intros Hs. unfold Remote.authenticate.
  unfold bind at 1, ask at 1.
  destruct (Remote.path_exists w Remote.token_file).
  - unfold bind at 1, ask at 1. rewrite Hs. cbn [app]. unfold missing_credentials.
    match goal with |- _ = ?y => destruct y as [[w2 o2] r2] end. reflexivity.
  - injection Hs as <-. rewrite bind_ret_l. cbn [app]. unfold missing_credentials.
    match goal with |- _ = ?y => destruct y as [[w2 o2] r2] end. reflexivity.
Qed.

(** X10. With a stored token that is valid, [authenticate] only
    builds the service: nothing is refreshed, the authorization flow is
    not run and the token file is not written. *)
Theorem valid_token_only_builds
    {W : Type} `{Remote.Env W} (w : W) (c : Remote.credentials) :
  stored_token w = Ok (Some c) ->
  Remote.valid c = true ->
  Remote.authenticate w
  = bind (act (fun w => Remote.build w c))
      (fun _ => print (lit "Successfully authenticated with Gmail API")) w.
Proof.
  intros Hs Hv. rewrite (authenticate_stored w _ Hs), Hv. now rewrite bind_ret_l.
Qed.

Lemma valid_token_only_builds_witness :
  outcome Remote.authenticate {| calls := 0 |} = ({| calls := 0 |}, Ok tt).
Proof.
  assert (Hs : stored_token {| calls := 0 |}
               = Ok (Some {| Remote.valid := true; Remote.expired := false;
                             Remote.refresh_token := true |})) by reflexivity.
  unfold outcome.
  rewrite (valid_token_only_builds {| calls := 0 |} _ Hs eq_refl).
  reflexivity.
Defined.

(** X11. With a stored token that is not valid but expired and
    refreshable, [authenticate] refreshes it, writes the token file and
    then builds the service; the authorization flow is not run and the
    client secrets file is not looked for. *)
Theorem expired_token_is_refreshed
    {W : Type} `{Remote.Env W} (w : W) (c : Remote.credentials) :
  stored_token w = Ok (Some c) ->
  Remote.valid c = false ->
  Remote.expired c = true ->
  Remote.refresh_token c = true ->
  Remote.authenticate w
  = bind (act (fun w => Remote.refresh w c))
      (fun c' =>
         act (fun w => Remote.save_token w Remote.token_file c') >>
         act (fun w => Remote.build w c') >>
         print (lit "Successfully authenticated with Gmail API")) w.
Proof.
  intros Hs Hv He Hr. rewrite (authenticate_stored w _ Hs), Hv, He, Hr.
  cbn [andb]. rewrite bind_assoc. apply bind_ext. intros c' w1.
  rewrite bind_assoc. apply bind_ext. intros [] w2. now rewrite bind_ret_l.
Qed.

Lemma expired_token_is_refreshed_witness :
  outcome Remote.authenticate ([] : list auth_call)
  = ([Refreshed; Saved; Built], Ok tt).
Proof.
  assert (Hs : stored_token ([] : list auth_call)
               = Ok (Some {| Remote.valid := false; Remote.expired := true;
                             Remote.refresh_token := true |})) by reflexivity.
  unfold outcome.
  rewrite (expired_token_is_refreshed [] _ Hs eq_refl eq_refl eq_refl).
  reflexivity.
Defined.

(** X12. When the stored credentials can be neither used nor
    refreshed (or there are none) and the client secrets file is
    absent, [authenticate] raises [FileNotFoundError] without acting on
    the world, and [main] prints the fatal error and exits with 1
    without reading the template or the contacts. *)
Theorem missing_client_secrets_is_fatal
    {W : Type} `{Remote.Env W} (w : W) (o : option Remote.credentials) :
  stored_token w = Ok o ->
  must_authorize o = true ->
  Remote.path_exists w Remote.credentials_file = false ->
  Remote.authenticate w = (w, [], Raise (FileNotFoundError missing_credentials)) /\
  Remote.main w
  = (w,
     [lit "Gmail Draft Creator"; List.repeat 61 50;
      lit "Fatal error: " ++ missing_credentials],
     Ok 1%nat).
Proof.
  intros Hs Hm Hc.
  assert (Ha : Remote.authenticate w
               = (w, [], Raise (FileNotFoundError missing_credentials))).
  { rewrite (authenticate_stored w _ Hs). destruct o as [c|]; cbn in Hm.
    - apply andb_prop in Hm as [Hv Hr].
      apply negb_true_iff in Hv, Hr. rewrite Hv, Hr.
      unfold bind, ask, raise. now rewrite Hc.
    - unfold bind, ask, raise. now rewrite Hc. }
  split; [exact Ha|].
  unfold Remote.main, try_except, bind at 1 2 3, print at 1 2. rewrite Ha.
  reflexivity.
Qed.

Lemma missing_client_secrets_is_fatal_witness :
  Remote.main FreshInstall
  = (FreshInstall,
     [lit "Gmail Draft Creator"; List.repeat 61 50;
      lit "Fatal error: Credentials file 'credentials.json' not found. Please download it from Google Cloud Console."],
     Ok 1%nat).
Proof.
  assert (Hs : stored_token FreshInstall = Ok None) by reflexivity.
  assert (Hc : Remote.path_exists FreshInstall Remote.credentials_file = false)
    by reflexivity.
  exact (proj2 (missing_client_secrets_is_fatal FreshInstall None Hs eq_refl Hc)).
Defined.

(** X13. When the stored credentials can be neither used nor refreshed
    (or there are none) and the client secrets file is present,
    [authenticate] runs the authorization flow, writes the token file
    with what the flow gave, and then builds the service. *)
Theorem fresh_authorization_is_saved
    {W : Type} `{Remote.Env W} (w : W) (o : option Remote.credentials) :
  stored_token w = Ok o ->
  must_authorize o = true ->
  Remote.path_exists w Remote.credentials_file = true ->
  Remote.authenticate w
  = bind (act (fun w => Remote.run_flow w Remote.credentials_file))
      (fun c' =>
         act (fun w => Remote.save_token w Remote.token_file c') >>
         act (fun w => Remote.build w c') >>
         print (lit "Successfully authenticated with Gmail API")) w.
Proof.
  intros Hs Hm Hc. rewrite (authenticate_stored w _ Hs).
  assert (Hask : forall B (k : bool -> M W B),
            bind (ask (fun w => Ok (Remote.path_exists w Remote.credentials_file))) k w
            = k true w).
  { intros B k. unfold bind, ask. rewrite Hc. now destruct (k true w) as [[w2 o2] r]. }
  destruct o as [c|]; cbn in Hm.
  - apply andb_prop in Hm as [Hv Hr]. apply negb_true_iff in Hv, Hr.
    rewrite Hv, Hr. rewrite !bind_assoc, Hask.
    apply bind_ext. intros c' w1.
    rewrite bind_assoc. apply bind_ext. intros [] w2. now rewrite bind_ret_l.
  - rewrite !bind_assoc, Hask. rewrite bind_assoc.
    apply bind_ext. intros c' w1.
    rewrite bind_assoc. apply bind_ext. intros [] w2. now rewrite bind_ret_l.
Qed.

Lemma fresh_authorization_is_saved_witness :
  Remote.authenticate no_login
  = (no_login, [], Raise (OtherError (lit "access_denied"))).
Proof.
  assert (Hs : stored_token no_login = Ok None) by reflexivity.
  assert (Hc : Remote.path_exists no_login Remote.credentials_file = true)
    by (vm_compute; reflexivity).
  rewrite (fresh_authorization_is_saved no_login None Hs eq_refl Hc).
  reflexivity.
Defined.

(** ** Runs that submit nothing *)

Lemma load_template_raises {W : Type} `{Files W} (tf : pystr) (e : exn) (w : W) :
  read_text w tf = Raise e ->
  load_template tf w
  = (w, [], Raise (match e with
                   | FileNotFoundError _ =>
                       FileNotFoundError (lit "Template file '" ++ tf ++ lit "' not found")
                   | _ => e
                   end)).
Proof.
  intros Hr. unfold load_template, try_except, ask. rewrite Hr.
  destruct e; reflexivity.
Qed.

Lemma load_contacts_raises {W : Type} `{Files W} (cf : pystr) (e : exn) (w : W) :
  read_rows w cf = Raise e ->
  load_contacts cf w
  = (w, [], Raise (match e with
                   | FileNotFoundError _ =>
                       FileNotFoundError (lit "Contacts file '" ++ cf ++ lit "' not found")
                   | _ => e
                   end)).
Proof.
  intros Hr. unfold load_contacts, try_except, ask. rewrite Hr.
  destruct e; reflexivity.
Qed.

(** X14. When the template cannot be read, or the template is read
    and the contacts cannot, the run does nothing to the world and
    prints one line, the error: a missing file under the name that was
    asked for, any other exception with its own message.  This holds in
    both variants; the lines about what was loaded are printed only
    after both files are read. *)
Theorem unreadable_file_stops_run
    {W1 : Type} `{Remote.Env W1} {W2 : Type} `{Simple.Env W2}
    (address tf cf st : pystr) (w1 : W1) (w2 : W2) :
  (forall e, read_text w1 tf = Raise e ->
     Remote.create_drafts_for_contacts tf cf st w1
     = (w1, [lit "Error: "
             ++ match e with
                | FileNotFoundError _ => lit "Template file '" ++ tf ++ lit "' not found"
                | _ => exn_msg e
                end], Ok tt)) /\
  (forall template e, read_text w1 tf = Ok template -> read_rows w1 cf = Raise e ->
     Remote.create_drafts_for_contacts tf cf st w1
     = (w1, [lit "Error: "
             ++ match e with
                | FileNotFoundError _ => lit "Contacts file '" ++ cf ++ lit "' not found"
                | _ => exn_msg e
                end], Ok tt)) /\
  (forall e, read_text w2 tf = Raise e ->
     Simple.create_drafts_for_contacts address tf cf st w2
     = (w2, [Simple.collision ++ lit " Error: "
             ++ match e with
                | FileNotFoundError _ => lit "Template file '" ++ tf ++ lit "' not found"
                | _ => exn_msg e
                end], Ok tt)) /\
  (forall template e, read_text w2 tf = Ok template -> read_rows w2 cf = Raise e ->
     Simple.create_drafts_for_contacts address tf cf st w2
     = (w2, [Simple.collision ++ lit " Error: "
             ++ match e with
                | FileNotFoundError _ => lit "Contacts file '" ++ cf ++ lit "' not found"
                | _ => exn_msg e
                end], Ok tt)).
Proof.
  repeat split.
  - intros e Hr. unfold Remote.create_drafts_for_contacts, try_except, bind at 1.
    rewrite (load_template_raises tf e w1 Hr). destruct e; reflexivity.
  - intros template e Ht Hr.
    unfold Remote.create_drafts_for_contacts, try_except, bind at 1 2.
    unfold load_template at 1, try_except, ask. rewrite Ht.
    rewrite (load_contacts_raises cf e w1 Hr). destruct e; reflexivity.
  - intros e Hr. unfold Simple.create_drafts_for_contacts, try_except, bind at 1.
    rewrite (load_template_raises tf e w2 Hr). destruct e; reflexivity.
  - intros template e Ht Hr.
    unfold Simple.create_drafts_for_contacts, try_except, bind at 1 2.
    unfold load_template at 1, try_except, ask. rewrite Ht.
    rewrite (load_contacts_raises cf e w2 Hr). destruct e; reflexivity.
Qed.

Lemma unreadable_file_stops_run_witness :
  Remote.create_drafts_for_contacts
    Remote.template_file Remote.contacts_file Remote.subject_template no_template
  = (no_template, [lit "Error: Template file 'email_template.txt' not found"], Ok tt).
Proof.
  assert (Hr : read_text no_template Remote.template_file
               = Raise (FileNotFoundError (lit "[Errno 2] No such file or directory")))
    by reflexivity.
  exact (proj1 (unreadable_file_stops_run (W1 := sim) (W2 := sim)
                  (lit "me@gmail.com") Remote.template_file Remote.contacts_file
                  Remote.subject_template no_template no_template) _ Hr).
Defined.

(** X15. When no contact has an address, the remote-API loop prints
    one warning per contact, in order, and leaves the world and the
    count as they were; the mailbox-protocol loop likewise submits
    nothing.  A run over such a list, the empty list included, reports
    0 drafts out of the number of contacts. *)
Theorem no_addresses_submits_nothing
    {W1 : Type} `{Remote.Env W1} {W2 : Type} `{Simple.Env W2}
    (address tf cf st template : pystr) (total i : nat)
    (contacts : list contact) (n : nat) (w1 : W1) (w2 : W2) :
  no_addresses contacts = true ->
  Remote.for_contacts template st contacts n w1
  = (w1,
     map (fun c => lit "Warning: No email found for contact " ++ fmt (get_name c))
       contacts,
     Ok n) /\
  outcome (Simple.for_contacts address template st total i contacts n) w2
  = (w2, Ok n) /\
  (read_text w1 tf = Ok template -> read_rows w1 cf = Ok contacts ->
   outcome (Remote.create_drafts_for_contacts tf cf st) w1 = (w1, Ok tt) /\
   last (stdout (Remote.create_drafts_for_contacts tf cf st) w1)
   = Some (newline ++ lit "Completed! " ++ summary 0 (length contacts))).
Proof.
  intros Hno.
  assert (Hr : forall n w,
            Remote.for_contacts template st contacts n w
            = (w, map (fun c => lit "Warning: No email found for contact "
                                ++ fmt (get_name c)) contacts, Ok n)).
  { clear n w1. induction contacts as [|c l IH]; intros n w; [reflexivity|].
    cbn [no_addresses forallb] in Hno. apply andb_prop in Hno as [Hc Hl].
    cbn [Remote.for_contacts map]. rewrite Hc.
    unfold bind, print. now rewrite (IH Hl). }
  split; [apply Hr|]. split.
  - clear Hr. revert i n w2. induction contacts as [|c l IH]; intros i n w2; [reflexivity|].
    cbn [no_addresses forallb] in Hno. apply andb_prop in Hno as [Hc Hl].
    cbn [Simple.for_contacts]. rewrite Hc. rewrite !outcome_print_then.
    now apply IH.
  - intros Ht Hc. unfold outcome, stdout.
    rewrite (remote_run_result tf cf st template contacts w1 w1 _ (Ok 0%nat) Ht Hc
               (Hr 0%nat w1)).
    split; [reflexivity|]. rewrite app_assoc. apply last_snoc.
Qed.

Lemma no_addresses_submits_nothing_witness :
  Remote.for_contacts (lit "Hi %name%") (lit "For %name%")
    [mk_contact (Some (lit "John Doe")) None] 0
    (sim0 (lit "Hi %name%") [mk_contact (Some (lit "John Doe")) None])
  = (sim0 (lit "Hi %name%") [mk_contact (Some (lit "John Doe")) None],
     [lit "Warning: No email found for contact John Doe"], Ok 0%nat).
Proof.
  refine (eq_trans (proj1 (no_addresses_submits_nothing (W1 := sim) (W2 := sim)
            (lit "me@gmail.com") Remote.template_file Remote.contacts_file
            (lit "For %name%") (lit "Hi %name%") 1 1
            [mk_contact (Some (lit "John Doe")) None] 0
            (sim0 (lit "Hi %name%") [mk_contact (Some (lit "John Doe")) None])
            (sim0 (lit "Hi %name%") [mk_contact (Some (lit "John Doe")) None]) _)) _);
    vm_compute; reflexivity.
Defined.

(** X16. A row is looked up under the lower-case column first: the
    capitalised column is used only when the lower-case one is absent.
    So a row with an empty [email] cell is skipped even when its
    [Email] cell holds an address, and a row with a [name] cell renders
    with it whatever its [Name] cell holds. *)
Theorem lower_case_column_wins (c : contact) (v : pyval) :
  c !! "email" = Some v ->
  get_email c = v /\
  (forall u, get_email (delete "email" (<["Email" := u]> c)) = u) /\
  (truthy v = false ->
   forall {W : Type} `{Remote.Env W} template st rest n (w : W),
     outcome (Remote.for_contacts template st (c :: rest) n) w
     = outcome (Remote.for_contacts template st rest n) w).
Proof.
  intros Hv. assert (He : get_email c = v).
  { unfold get_email, get. now rewrite Hv. }
  split; [exact He|]. split.
  - intros u. unfold get_email, get.
    rewrite lookup_delete_eq. cbn [default].
    rewrite lookup_delete_ne by discriminate. now rewrite lookup_insert_eq.
  - intros Hf W Henv template st rest n w.
    apply remote_skip. now rewrite He.
Qed.

Lemma lower_case_column_wins_witness :
  get_email two_email_columns = PyStr [] /\
  outcome (Remote.for_contacts (lit "Hi %name%") (lit "For %name%")
             [two_email_columns] 0) (sim0 (lit "Hi %name%") [two_email_columns])
  = (sim0 (lit "Hi %name%") [two_email_columns], Ok 0%nat).
Proof.
  assert (Hv : two_email_columns !! "email" = Some (PyStr [])) by (vm_compute; reflexivity).
  destruct (lower_case_column_wins two_email_columns (PyStr []) Hv) as (He & _ & Hs).
  split; [exact He|].
  rewrite (Hs eq_refl sim _ (lit "Hi %name%") (lit "For %name%") [] 0%nat).
  reflexivity.
Defined.

(** ** [main] of the mailbox-protocol variant *)

(** X17. While either credential constant has the value the file is
    shipped with, [main] of the mailbox-protocol variant prints the
    instructions and exits with 1 without connecting: the world is left
    as it was. *)
Theorem shipped_credentials_never_log_in
    {W : Type} `{Simple.Env W} (address password : pystr) (w : W) :
  address = Simple.GMAIL_EMAIL_shipped \/ password = Simple.GMAIL_APP_PASSWORD_shipped ->
  outcome (Simple.main address password) w = (w, Ok 1%nat) /\
  length (stdout (Simple.main address password) w) = 11%nat /\
  last (stdout (Simple.main address password) w)
  = Some (lit "5. Copy the 16-character password").
Proof.
  intros Hs.
  assert (Hb : bool_decide (address = Simple.GMAIL_EMAIL_shipped)
               || bool_decide (password = Simple.GMAIL_APP_PASSWORD_shipped) = true).
  { destruct Hs as [-> | ->].
    - now rewrite bool_decide_eq_true_2.
    - rewrite (bool_decide_eq_true_2 (_ = Simple.GMAIL_APP_PASSWORD_shipped)) by reflexivity.
      apply orb_true_r. }
  unfold Simple.main, outcome, stdout. rewrite Hb. repeat split.
Qed.

Lemma shipped_credentials_never_log_in_witness :
  outcome (Simple.main Simple.GMAIL_EMAIL_shipped (lit "abcd efgh ijkl mnop"))
    (sim0 (lit "Hi %name%") three_contacts)
  = (sim0 (lit "Hi %name%") three_contacts, Ok 1%nat).
Proof.
  exact (proj1 (shipped_credentials_never_log_in (W := sim)
                  Simple.GMAIL_EMAIL_shipped (lit "abcd efgh ijkl mnop")
                  (sim0 (lit "Hi %name%") three_contacts) (or_introl eq_refl))).
Defined.

(** X18. With both credential constants edited, a login that raises
    is reported by [connect_imap] with the set-up instructions, raised
    again, and reported by [main] as fatal: the exit code is 1, no file
    is read and nothing is appended, the world being the one the login
    attempt left. *)
Theorem failed_login_is_fatal
    {W : Type} `{Simple.Env W} (address password : pystr) (e : exn) (w w' : W) :
  address <> Simple.GMAIL_EMAIL_shipped ->
  password <> Simple.GMAIL_APP_PASSWORD_shipped ->
  Simple.imap_login w address password = (w', Raise e) ->
  Simple.connect_imap address password w
  = (w',
     [Simple.cross_mark ++ lit " Failed to connect to Gmail: " ++ exn_msg e;
      newline ++ Simple.wrench ++ lit " Setup Instructions:";
      lit "1. Go to https://myaccount.google.com/security";
      lit "2. Enable 2-Factor Authentication";
      lit "3. Generate an App Password for 'Mail'";
      lit "4. Update GMAIL_EMAIL and GMAIL_APP_PASSWORD in this script"],
     Raise e) /\
  outcome (Simple.main address password) w = (w', Ok 1%nat) /\
  last (stdout (Simple.main address password) w)
  = Some (Simple.collision ++ lit " Fatal error: " ++ exn_msg e).
Proof.
  intros Ha Hp Hl.
  assert (Hc : Simple.connect_imap address password w
               = (w',
                  [Simple.cross_mark ++ lit " Failed to connect to Gmail: " ++ exn_msg e;
                   newline ++ Simple.wrench ++ lit " Setup Instructions:";
                   lit "1. Go to https://myaccount.google.com/security";
                   lit "2. Enable 2-Factor Authentication";
                   lit "3. Generate an App Password for 'Mail'";
                   lit "4. Update GMAIL_EMAIL and GMAIL_APP_PASSWORD in this script"],
                  Raise e)).
  { unfold Simple.connect_imap, try_except, bind, act, print, raise.
    rewrite Hl. reflexivity. }
  split; [exact Hc|].
  unfold Simple.main, outcome, stdout.
  rewrite (bool_decide_eq_false_2 _ Ha), (bool_decide_eq_false_2 _ Hp).
  cbn [orb]. unfold try_except, bind, print, ret. rewrite Hc.
  split; reflexivity.
Qed.

Lemma failed_login_is_fatal_witness :
  outcome (Simple.main (lit "me@gmail.com") (lit "app-password")) no_login
  = (no_login, Ok 1%nat).
Proof.
  assert (Hl : Simple.imap_login no_login (lit "me@gmail.com") (lit "app-password")
               = (no_login,
                  Raise (OtherError
                           (lit "[AUTHENTICATIONFAILED] Invalid credentials (Failure)"))))
    by reflexivity.
  refine (proj1 (proj2 (failed_login_is_fatal (W := sim)
            (lit "me@gmail.com") (lit "app-password") _ no_login no_login _ _ Hl)));
    vm_compute; discriminate.
Defined.

(** ** Teardown *)

(** X19. [__del__] never raises and prints nothing.  Without a
    connection it does nothing; with one it closes the mailbox and, only
    if that did not raise, logs out: an exception of [close] leaves the
    session without a logout, and an exception of [logout] is
    dropped. *)
Theorem teardown_is_silent
    {W : Type} `{Teardown.Session W} (connected : bool) (w : W) :
  value (Teardown.del connected) w = Ok tt /\
  stdout (Teardown.del connected) w = [] /\
  outcome (Teardown.del false) w = (w, Ok tt) /\
  (forall w1 e, Teardown.imap_close w = (w1, Raise e) ->
     outcome (Teardown.del true) w = (w1, Ok tt)) /\
  (forall w1, Teardown.imap_close w = (w1, Ok tt) ->
     outcome (Teardown.del true) w = (fst (Teardown.imap_logout w1), Ok tt)).
Proof.
  unfold Teardown.del, value, stdout, outcome, try_except, bind, act, ret.
  repeat split.
  - destruct connected; [|reflexivity].
    destruct (Teardown.imap_close w) as [w1 [[]|e]]; [|reflexivity].
    destruct (Teardown.imap_logout w1) as [w2 [[]|e]]; reflexivity.
  - destruct connected; [|reflexivity].
    destruct (Teardown.imap_close w) as [w1 [[]|e]]; [|reflexivity].
    destruct (Teardown.imap_logout w1) as [w2 [[]|e]]; reflexivity.
  - intros w1 e ->. reflexivity.
  - intros w1 ->. destruct (Teardown.imap_logout w1) as [w2 [[]|e]]; reflexivity.
Qed.

Lemma teardown_is_silent_witness :
  outcome (Teardown.del true) ([] : list call) = ([Close], Ok tt).
Proof.
  exact (proj1 (proj2 (proj2 (proj2
           (teardown_is_silent (W := list call) true []))))
           [Close] (OtherError (lit "command CLOSE illegal in state AUTH")) eq_refl).
Defined.

(** ** More on HTML promotion *)

Lemma convert_to_html_promote text :
  convert_to_html text = html_open ++ promote text ++ html_close.
Proof.
  unfold convert_to_html, html_open, html_close.
  rewrite replace_newline, sub_url_after_br. now rewrite <- !app_assoc.
Qed.

Lemma contains_cons_none (old : pystr) c s :
  contains old (c :: s) = false ->
  strip_prefix old (c :: s) = None /\ contains old s = false.
Proof.
  cbn [contains]. destruct (strip_prefix old (c :: s)); [discriminate|]. auto.
Qed.

(** X20. A text of one line in which [http] does not occur is put
    into the document as it is: nothing is escaped, so angle brackets,
    ampersands and quotes of the body reach the HTML unchanged. *)
Theorem plain_text_is_not_escaped (text : pystr) :
  one_line text = true ->
  contains (lit "http") text = false ->
  promote text = text /\
  convert_to_html text = html_open ++ text ++ html_close.
Proof.
  intros Hl Hc.
  assert (Hp : promote text = text).
  { unfold promote. induction text as [|c text IH]; [reflexivity|].
    cbn [one_line forallb] in Hl. apply andb_prop in Hl as [Hn Hl].
    apply contains_cons_none in Hc as [Hs Hc].
    cbn [promote_from]. unfold match_url. rewrite Hs.
    unfold br. apply negb_true_iff in Hn. rewrite Hn.
    cbn [app]. f_equal. now apply IH. }
  split; [exact Hp|]. now rewrite convert_to_html_promote, Hp.
Qed.

Lemma plain_text_is_not_escaped_witness :
  convert_to_html (lit "<b>Tom & Jerry</b>")
  = html_open ++ lit "<b>Tom & Jerry</b>" ++ html_close.
Proof.
  apply (plain_text_is_not_escaped (lit "<b>Tom & Jerry</b>")); vm_compute; reflexivity.
Defined.

Lemma strip_prefix_before_newline (p a b : pystr) :
  one_line p = true ->
  strip_prefix p (a ++ 10 :: b)
  = option_map (fun r => r ++ 10 :: b) (strip_prefix p a).
Proof.
  revert a. induction p as [|x p IH]; intros a Hp; [reflexivity|].
  cbn [one_line forallb] in Hp. apply andb_prop in Hp as [Hx Hp].
  apply negb_true_iff in Hx.
  destruct a as [|c a].
  - cbn [app strip_prefix]. now rewrite Hx.
  - cbn [app strip_prefix]. destruct (x =? c); [now apply IH|reflexivity].
Qed.

Lemma run_before_newline (a b : pystr) :
  run url_char (a ++ 10 :: b) = run url_char a.
Proof.
  induction a as [|c a IH]; [reflexivity|].
  cbn [app run]. now rewrite IH.
Qed.

Lemma match_tail_before_newline scheme (a b : pystr) :
  match_tail scheme (a ++ 10 :: b) = match_tail scheme a.
Proof.
  unfold match_tail. rewrite strip_prefix_before_newline by reflexivity.
  destruct (strip_prefix (lit "://") a) as [r|]; [|reflexivity].
  cbn [option_map]. now rewrite run_before_newline.
Qed.

Lemma match_url_before_newline (a b : pystr) :
  match_url (a ++ 10 :: b) = match_url a.
Proof.
  unfold match_url. rewrite strip_prefix_before_newline by reflexivity.
  destruct (strip_prefix (lit "http") a) as [r|]; [|reflexivity].
  cbn [option_map]. rewrite strip_prefix_before_newline by reflexivity.
  rewrite match_tail_before_newline.
  destruct (strip_prefix (lit "s") r) as [r'|]; [|reflexivity].
  cbn [option_map]. now rewrite match_tail_before_newline.
Qed.

Lemma promote_lines (a b : pystr) :
  promote (a ++ 10 :: b) = promote a ++ lit "<br>" ++ newline ++ promote b.
Proof.
  remember (length a) as n eqn:Hn. revert a Hn.
  induction n as [n IH] using lt_wf_ind. intros a ->.
  destruct a as [|c a]; [reflexivity|].
  pose proof (match_url_before_newline (c :: a) b) as Hb.
  destruct (match_url (c :: a)) as [m|] eqn:Em.
  - destruct (url_at_nonempty _ _ (proj1 (match_url_spec _ _) Em))
      as (c' & t' & rest & Hm & Hs).
    rewrite Hs in Em, Hb |- *. rewrite <- app_assoc in Hb |- *.
    rewrite (promote_hit _ _ Hb), (promote_hit _ _ Em).
    rewrite (IH (length rest)); [now rewrite <- app_assoc| |reflexivity].
    apply (f_equal (@length N)) in Hs. rewrite length_app, Hm in Hs.
    simpl in Hs. simpl. lia.
  - unfold promote in *. cbn [app promote_from] in *. rewrite Hb, Em.
    rewrite (IH (length a)) by (simpl; lia || reflexivity).
    now rewrite <- !app_assoc.
Qed.

(** X21. The lines of a body are promoted one by one: the document
    of two texts with a newline between them holds the promotion of the
    first, a line-break tag and the newline, and the promotion of the
    second.  A URL never runs over a newline, and a newline at the end
    of a URL is not taken into the anchor. *)
Theorem lines_are_promoted_apart (a b : pystr) :
  promote (a ++ newline ++ b) = promote a ++ lit "<br>" ++ newline ++ promote b /\
  convert_to_html (a ++ newline ++ b)
  = html_open ++ promote a ++ lit "<br>" ++ newline ++ promote b ++ html_close.
Proof.
  assert (Hp : promote (a ++ newline ++ b)
               = promote a ++ lit "<br>" ++ newline ++ promote b)
    by apply promote_lines.
  split; [exact Hp|].
  rewrite convert_to_html_promote, Hp. now rewrite <- !app_assoc.
Qed.

(** X22. What the pattern matches is a prefix of the text at the scan
    position, at least eight characters long, with no whitespace, angle
    bracket or double quote in it: the [href] of an anchor cannot end
    its own attribute or tag. *)
Theorem matched_url_is_clean (s m : pystr) :
  match_url s = Some m ->
  forallb url_char m = true /\
  (exists rest, s = m ++ rest) /\
  (8 <= length m)%nat.
Proof.
  intros Hm. apply match_url_spec in Hm.
  destruct Hm as (scheme & tail & rest & Hs & -> & Hne & Ht & -> & _).
  split; [|split].
  - rewrite !forallb_app, Ht. destruct Hs as [-> | ->]; reflexivity.
  - now exists rest.
  - rewrite !length_app. destruct tail; [congruence|].
    destruct Hs as [-> | ->]; simpl; lia.
Qed.

Lemma matched_url_is_clean_witness :
  forallb url_char (lit "https://example.com/a?b=1") = true.
Proof.
  apply (matched_url_is_clean (lit "https://example.com/a?b=1 and more")
           (lit "https://example.com/a?b=1")).
  vm_compute. reflexivity.
Defined.

(** ** More on the renderers *)

(** X23. In the remote-API variant, for a name that is a string with
    a character other than whitespace, the first whitespace-delimited
    token of the name exists and is unique, and [process_template]
    returns the pieces of the template between the placeholders, none
    of which holds a placeholder, joined by that token. *)
Theorem first_name_substitution (template : pystr) (c : contact) (name : pystr) :
  get_name c = PyStr name ->
  all_space name = false ->
  exists t,
    first_token name t /\
    (forall t', first_token name t' -> t' = t) /\
    template = join placeholder (split_on placeholder template) /\
    Forall (fun q => contains placeholder q = false) (split_on placeholder template) /\
    Remote.process_template template c = Ok (join t (split_on placeholder template)).
Proof.
  intros Hn Hs.
  destruct (split_ws_cases name) as [Ha | [t Ht]]; [congruence|].
  exists t. split; [exact Ht|]. split.
  - intros t' Ht'.
    destruct (split_ws_first _ _ Ht) as [ts Hts].
    destruct (split_ws_first _ _ Ht') as [ts' Hts'].
    congruence.
  - split; [symmetry; apply (join_split 37 (lit "name%"))|].
    split; [apply (split_pieces_free 37 (lit "name%"))|].
    rewrite (remote_render_token _ _ _ _ Hn Ht). f_equal.
    apply (replace_join_split 37 (lit "name%")).
Qed.

Lemma first_name_substitution_witness :
  exists t,
    first_token (lit "Jane Q. Public") t /\
    Remote.process_template (lit "Dear %name%, hello %name%!") jane
    = Ok (join t (split_on placeholder (lit "Dear %name%, hello %name%!"))).
Proof.
  destruct (first_name_substitution (lit "Dear %name%, hello %name%!") jane
              (lit "Jane Q. Public")) as (t & Ht & _ & _ & _ & Hr);
    try (vm_compute; reflexivity).
  exists t. split; assumption.
Defined.

(** X24. In the mailbox-protocol variant, for a name that is a
    string, [process_template] returns the pieces of the template
    between the placeholders, none of which holds a placeholder, joined
    by the name as it is, whitespace included; for a name cell that is
    [None] it raises [TypeError], whether or not the template has a
    placeholder. *)
Theorem full_name_substitution (template : pystr) (c : contact) :
  (forall name, get_name c = PyStr name ->
     template = join placeholder (split_on placeholder template) /\
     Forall (fun q => contains placeholder q = false) (split_on placeholder template) /\
     Simple.process_template template c = Ok (join name (split_on placeholder template))) /\
  (get_name c = PyNone -> Simple.process_template template c = Raise TypeError).
Proof.
  split.
  - intros name Hn.
    split; [symmetry; apply (join_split 37 (lit "name%"))|].
    split; [apply (split_pieces_free 37 (lit "name%"))|].
    rewrite (simple_render _ _ _ Hn). f_equal.
    apply (replace_join_split 37 (lit "name%")).
  - intros Hn. unfold Simple.process_template. now rewrite Hn.
Qed.

Lemma full_name_substitution_witness :
  Simple.process_template (lit "Hi %name%!") padded_name = Ok (lit "Hi  Jane!").
Proof.
  destruct (proj1 (full_name_substitution (lit "Hi %name%!") padded_name)
              (lit " Jane")) as (_ & _ & ->); vm_compute; reflexivity.
Defined.
